(** * sbi: MCMC posterior sampling facade and posterior-based potential

    A shallow embedding of

      - [sbi/inference/posteriors/mcmc_posterior.py]   (class [MCMCPosterior])
      - [sbi/inference/potentials/posterior_based_potential.py]
        (class [PosteriorPotential])

    Python objects become records, methods that mutate [self] or draw random
    numbers become computations in a state-and-exception monad, and raised
    exceptions become values of [exn].  Collaborators that live outside the
    two files (prior, transform, slice samplers, Pyro kernels, the density
    estimator) are interface parameters. *)

From Stdlib Require Import String Ascii Arith Bool Lia List.
Import ListNotations.
Local Open Scope string_scope.
Local Open Scope list_scope.

Set Implicit Arguments.

(** ** Python values and exceptions *)

Module Py.

(** The exception classes raised in, or propagated through, the two files. *)
Inductive exn : Set :=
| NotImplementedError
| NameError
| IndexError
| ValueError
| RuntimeError
| AttributeError
| AssertionError
| ZeroDivisionError
| TypeError
| KeyError
| StopIteration.

Inductive result (A : Type) : Type :=
| Ok (a : A)
| Raise (e : exn).
Arguments Ok {A} a.
Arguments Raise {A} e.

(** [needle in haystack] for two [str] operands: substring search. *)
Fixpoint str_contains (needle haystack : string) : bool :=
  if String.prefix needle haystack then true
  else match haystack with
       | EmptyString => false
       | String _ rest => str_contains needle rest
       end.

(** [s in (t1, ..., tn)] for a tuple of strings: membership by equality. *)
Fixpoint str_in (s : string) (ts : list string) : bool :=
  match ts with
  | [] => false
  | t :: ts' => String.eqb s t || str_in s ts'
  end.

(** [math.ceil(a / b)] for non-negative [a] and positive [b], computed on
    the integers. *)
Definition ceil_div (a b : nat) : nat :=
  if Nat.eqb (a mod b) 0 then a / b else S (a / b).

(** [l[::k]] for a positive step [k]: the elements at indices
    [0, k, 2k, ...].  [skip] counts the elements still to be passed over
    before the next one is kept. *)
Fixpoint stride_from (k skip : nat) (A : Type) (l : list A) : list A :=
  match l with
  | [] => []
  | a :: l' =>
      match skip with
      | 0 => a :: stride_from k (k - 1) l'
      | S j => stride_from k j l'
      end
  end.
Arguments stride_from k skip {A} l.

Definition stride (k : nat) {A : Type} (l : list A) : list A :=
  stride_from k 0 l.

(** [l[-1]] as an option: [None] stands for the out-of-range index. *)
Definition last_opt {A : Type} (l : list A) : option A :=
  match rev l with
  | [] => None
  | a :: _ => Some a
  end.

End Py.
Import Py.


(** ** Tensors *)

Module Torch.

(** [torch.Size(shape).numel()]: the product of the dimensions; [1] for the
    empty shape. *)
Definition numel (shape : list nat) : nat := fold_right Nat.mul 1 shape.

(** The shape produced by [t.reshape(shape + (-1,))] on a tensor of [n]
    elements.  The trailing dimension is inferred as [n / numel shape];
    torch refuses the call when the known dimensions multiply to zero (the
    inferred one would be ambiguous) or do not divide [n]. *)
Definition reshape_infer_last (shape : list nat) (n : nat)
  : result (list nat) :=
  let known := numel shape in
  if Nat.eqb known 0 then Raise RuntimeError
  else if Nat.eqb (n mod known) 0 then Ok (shape ++ [n / known])
  else Raise RuntimeError.

End Torch.

(** ** Collaborators of the sampling facade

    Everything [MCMCPosterior] imports from outside its own file.  A parameter
    vector [Theta] stands for one row of length [dim >= 1]; a two-dimensional
    tensor of parameters is a [list Theta], a [chains x time x dim] buffer a
    [list (list Theta)].  Random draws thread a generator state [Rng].  The
    potential function reads the observation bound on it at evaluation time,
    so every sampler takes the current binding as an argument.  Progress
    bars, devices, dtype casts and gradient bookkeeping have no effect on the
    values and are left out. *)

Inductive kernel : Set := Slice | HMC | NUTS.

Class Collaborators : Type := {
  Theta : Type;
  X : Type;
  Rng : Type;
  (** length of one parameter vector, [initial_params.shape[1]] *)
  dim : nat;

  (** Modelled from the spec: [process_x] (sbi.utils, not under src/) checks
      the conditioning data against the expected observation shape; a
      mismatch fails fast (spec section 7). *)
  process_x : X -> bool;
  (** The exception [process_x] raises on a mismatch: a "descriptive
      error", of a class that neither the two files nor the spec name. *)
  process_x_error : exn;

  (** Modelled from the spec: [prior_init] (sbi.samplers.mcmc) draws one
      sample from the prior and maps it through the transform. *)
  prior_init : Rng -> Theta * Rng;

  (** Modelled from the spec: [sir] (sbi.samplers.mcmc) resamples one prior
      candidate by importance weight under the potential. *)
  sir : option X -> Rng -> Theta * Rng;

  (** [theta_transform.inv] on one row. *)
  theta_transform_inv : Theta -> Theta;

  (** Modelled from the spec: [SliceSampler] (sbi.samplers.mcmc).  An object
      holding the chain position; [gen n] advances it and returns [n]
      retained draws, each [thin] transitions apart (spec section 4.4). *)
  SliceSampler : Type;
  SliceSampler_new : option X -> Theta -> nat -> SliceSampler;
  SliceSampler_gen :
    SliceSampler -> nat -> Rng -> list Theta * SliceSampler * Rng;
  SliceSampler_gen_length : forall s n g,
    length (fst (fst (SliceSampler_gen s n g))) = n;

  (** Modelled from the spec: [SliceSamplerVectorized(...).run(n)]
      (sbi.samplers.mcmc) advances all chains in lockstep for [n] timesteps
      and returns the [chains x n x dim] trajectory (spec section 4.5). *)
  SliceSamplerVectorized_run :
    option X -> list Theta -> nat -> Rng -> list (list Theta) * Rng;
  SliceSamplerVectorized_run_chains : forall x init n g,
    length (fst (SliceSamplerVectorized_run x init n g)) = length init;
  SliceSamplerVectorized_run_steps : forall x init n g,
    Forall (fun chain => length chain = n)
           (fst (SliceSamplerVectorized_run x init n g));

  (** Pyro's [MCMC(kernel, num_samples, warmup_steps, initial_params,
      num_chains).run()] followed by [get_samples()]: [num_samples] draws
      per chain, the chains flattened into one [ (num_chains * num_samples)
      x dim ] tensor (spec section 6, external MCMC kernel interface). *)
  MCMC_run :
    kernel -> option X -> nat -> nat -> list Theta -> nat -> Rng ->
    list Theta * Rng;
  MCMC_run_length : forall k x num_samples warmup init num_chains g,
    length (fst (MCMC_run k x num_samples warmup init num_chains g))
    = num_chains * num_samples
}.

(** ** The sampling facade: [class MCMCPosterior] *)

Section Facade.

Context {C : Collaborators}.

(** A tensor of parameters of any rank: its shape, and its rows of length
    [dim] in row-major order ([reshape] moves no data). *)
Record tensor : Type := {
  shape : list nat;
  rows : list Theta
}.

(** The attributes of an [MCMCPosterior] instance.  [_mcmc_method] and
    [_mcmc_init_params] do not exist until they are first assigned, hence
    the options.  [x_o] is the observation bound on [self.potential_fn],
    [default_x] the default of the base class [NeuralPosterior]. *)
Record MCMCPosterior : Type := {
  method : string;
  thin : nat;
  warmup_steps : nat;
  num_chains : nat;
  init_strategy : string;
  init_strategy_num_candidates : nat;
  (** the two flags [__init__] bakes into [self.potential_] *)
  potential_track_gradients : bool;
  potential_pyro : bool;
  _mcmc_method : option string;
  _mcmc_init_params : option (list Theta);
  x_o : option X;
  default_x : option X
}.

(** The mutable world a method runs in: the instance and the random
    generator. *)
Record world : Type := {
  self : MCMCPosterior;
  rng : Rng
}.

(** Methods: state passing with exceptions.  The state survives a raise,
    as attribute assignments made before the exception do in Python. *)
Definition M (A : Type) : Type := world -> world * result A.

Definition ret {A} (a : A) : M A := fun w => (w, Ok a).

Definition raise {A} (e : exn) : M A := fun w => (w, Raise e).

Definition bind {A B} (m : M A) (k : A -> M B) : M B :=
  fun w =>
    match m w with
    | (w', Ok a) => k a w'
    | (w', Raise e) => (w', Raise e)
    end.

Definition get {A} (field : MCMCPosterior -> A) : M A :=
  fun w => (w, Ok (field (self w))).

Definition update (f : MCMCPosterior -> MCMCPosterior) : M unit :=
  fun w => ({| self := f (self w); rng := rng w |}, Ok tt).

(** Run a random draw of a collaborator on the generator. *)
Definition draw {A} (f : Rng -> A * Rng) : M A :=
  fun w =>
    let (a, g) := f (rng w) in
    ({| self := self w; rng := g |}, Ok a).

(** [assert b] *)
Definition assert (b : bool) : M unit :=
  if b then ret tt else raise AssertionError.

End Facade.

Notation "x <- m ;; k" := (bind m (fun x => k))
  (at level 61, m at next level, right associativity).
Notation "m ;;; k" := (bind m (fun _ => k))
  (at level 61, right associativity).

Section Methods.

Context {C : Collaborators}.

(** *** Construction *)

(** [MCMCPosterior.__init__].  [potential_x_o] is the observation already
    bound on the [potential_fn] passed in; the base constructor
    [NeuralPosterior.__init__] (not under src/), called first, takes it as
    the default observation.  The attributes are assigned next, then the
    method string selects the potential wrapper; an identifier matching
    none of the three tests raises. *)
Definition __init__ (potential_x_o : option X)
    (method_ : string) (thin_ warmup_steps_ num_chains_ : nat)
    (init_strategy_ : string) (init_strategy_num_candidates_ : nat)
  : result MCMCPosterior :=
  let mk track_gradients pyro :=
    Ok {| method := method_;
          thin := thin_;
          warmup_steps := warmup_steps_;
          num_chains := num_chains_;
          init_strategy := init_strategy_;
          init_strategy_num_candidates := init_strategy_num_candidates_;
          potential_track_gradients := track_gradients;
          potential_pyro := pyro;
          _mcmc_method := None;
          _mcmc_init_params := None;
          x_o := potential_x_o;
          default_x := potential_x_o |} in
  if String.eqb method_ "slice" then mk false true
  else if str_in method_ ["hmc"; "nuts"] then mk true true
  else if str_contains "slice_np" method_ then mk false false
  else Raise NotImplementedError.

(** *** Attribute updates *)

Definition set__mcmc_method (v : option string) (p : MCMCPosterior)
  : MCMCPosterior :=
  {| method := method p;
     thin := thin p;
     warmup_steps := warmup_steps p;
     num_chains := num_chains p;
     init_strategy := init_strategy p;
     init_strategy_num_candidates := init_strategy_num_candidates p;
     potential_track_gradients := potential_track_gradients p;
     potential_pyro := potential_pyro p;
     _mcmc_method := v;
     _mcmc_init_params := _mcmc_init_params p;
     x_o := x_o p;
     default_x := default_x p |}.

Definition set__mcmc_init_params (v : option (list Theta))
    (p : MCMCPosterior) : MCMCPosterior :=
  {| method := method p;
     thin := thin p;
     warmup_steps := warmup_steps p;
     num_chains := num_chains p;
     init_strategy := init_strategy p;
     init_strategy_num_candidates := init_strategy_num_candidates p;
     potential_track_gradients := potential_track_gradients p;
     potential_pyro := potential_pyro p;
     _mcmc_method := _mcmc_method p;
     _mcmc_init_params := v;
     x_o := x_o p;
     default_x := default_x p |}.

Definition set_x_o (v : option X) (p : MCMCPosterior) : MCMCPosterior :=
  {| method := method p;
     thin := thin p;
     warmup_steps := warmup_steps p;
     num_chains := num_chains p;
     init_strategy := init_strategy p;
     init_strategy_num_candidates := init_strategy_num_candidates p;
     potential_track_gradients := potential_track_gradients p;
     potential_pyro := potential_pyro p;
     _mcmc_method := _mcmc_method p;
     _mcmc_init_params := _mcmc_init_params p;
     x_o := v;
     default_x := default_x p |}.

Definition set_init_strategy (v : string) (p : MCMCPosterior)
  : MCMCPosterior :=
  {| method := method p;
     thin := thin p;
     warmup_steps := warmup_steps p;
     num_chains := num_chains p;
     init_strategy := v;
     init_strategy_num_candidates := init_strategy_num_candidates p;
     potential_track_gradients := potential_track_gradients p;
     potential_pyro := potential_pyro p;
     _mcmc_method := _mcmc_method p;
     _mcmc_init_params := _mcmc_init_params p;
     x_o := x_o p;
     default_x := default_x p |}.

(** *** The [mcmc_method] property and its setter *)

(** [mcmc_method] (getter): reads [self._mcmc_method]; the attribute is
    missing until a setter has run. *)
Definition mcmc_method : M string :=
  v <- get _mcmc_method ;;
  match v with
  | Some m => ret m
  | None => raise AttributeError
  end.

(** [set_mcmc_method(method)]: assigns [self._mcmc_method]. *)
Definition set_mcmc_method (method_ : string) : M unit :=
  update (set__mcmc_method (Some method_)).

(** [mcmc_method.setter]: delegates to [set_mcmc_method]. *)
Definition mcmc_method_setter (method_ : string) : M unit :=
  set_mcmc_method method_.

(** *** Conditioning data *)

(** Modelled from the spec: [NeuralPosterior._x_else_default_x] is in the
    base class, not under src/.  A given [x] is shape-checked by
    [process_x], whose error is passed on; without one the default is used,
    and a call with neither is a value error. *)
Definition _x_else_default_x (x : option X) : M X :=
  match x with
  | Some v => if process_x v then ret v else raise process_x_error
  | None =>
      d <- get default_x ;;
      match d with
      | Some v => ret v
      | None => raise ValueError
      end
  end.

(** [self.potential_fn.set_x(x)]: rebinds the observation. *)
Definition set_x (x : X) : M unit := update (set_x_o (Some x)).

(** *** Chain initialisation *)

(** The callables returned by [_build_mcmc_init_fn].  [IterateParameters]
    carries the saved per-chain states and the position of its iterator. *)
Inductive init_fn : Type :=
| PriorInit
| SirInit
| IterateParameters (parameters : list Theta) (position : nat).

(** [_build_mcmc_init_fn(prior, potential_fn, transform, init_strategy)].
    Reading [self._mcmc_init_params] before any assignment is an
    [AttributeError]. *)
Definition _build_mcmc_init_fn (init_strategy_ : string) : M init_fn :=
  if String.eqb init_strategy_ "prior" then ret PriorInit
  else if String.eqb init_strategy_ "sir" then ret SirInit
  else if String.eqb init_strategy_ "latest_sample" then
    saved <- get _mcmc_init_params ;;
    match saved with
    | Some parameters => ret (IterateParameters parameters 0)
    | None => raise AttributeError
    end
  else raise NotImplementedError.

(** One call [init_fn()]: the row produced and the callable afterwards.
    Modelled from the spec: [IterateParameters] (sbi.samplers.mcmc) replays
    the saved states, cycling through them. *)
Definition call_init_fn (f : init_fn) : M (Theta * init_fn) :=
  match f with
  | PriorInit =>
      theta <- draw prior_init ;;
      ret (theta, PriorInit)
  | SirInit =>
      x <- get x_o ;;
      theta <- draw (sir x) ;;
      ret (theta, SirInit)
  | IterateParameters parameters position =>
      match nth_error parameters (position mod length parameters) with
      | Some theta => ret (theta, IterateParameters parameters (S position))
      | None => raise StopIteration
      end
  end.

(** [[init_fn() for _ in range(n)]] *)
Fixpoint init_fn_for_range (n : nat) (f : init_fn) : M (list Theta) :=
  match n with
  | 0 => ret []
  | S n' =>
      r <- call_init_fn f ;;
      thetas <- init_fn_for_range n' (snd r) ;;
      ret (fst r :: thetas)
  end.

(** [torch.cat(tensors)] of [1 x dim] rows; an empty list is refused. *)
Definition torch_cat (tensors : list Theta) : M (list Theta) :=
  match tensors with
  | [] => raise RuntimeError
  | _ => ret tensors
  end.

(** *** Custom slice sampling: [_slice_np_mcmc] *)

(** The body of [for c in range(num_chains)] over the rows of
    [initial_params]: a fresh [SliceSampler] per chain, an optional warmup
    [gen] whose draws are dropped, then [gen(ceil(num_samples /
    num_chains))].  [num_chains] is the row count of the whole tensor. *)
Fixpoint sample_chains_sequentially (chains : list Theta)
    (num_samples num_chains thin_ warmup_steps_ : nat)
  : M (list (list Theta)) :=
  match chains with
  | [] => ret []
  | init :: chains' =>
      x <- get x_o ;;
      let posterior_sampler := SliceSampler_new x init thin_ in
      posterior_sampler <-
        (if Nat.ltb 0 warmup_steps_
         then r <- draw (SliceSampler_gen posterior_sampler warmup_steps_) ;;
              ret (snd r)
         else ret posterior_sampler) ;;
      r <- draw (SliceSampler_gen posterior_sampler
                   (ceil_div num_samples num_chains)) ;;
      rest <- sample_chains_sequentially chains' num_samples num_chains
                thin_ warmup_steps_ ;;
      ret (fst r :: rest)
  end.

(** [np.stack(arrays)]: needs at least one array. *)
Definition np_stack (arrays : list (list Theta)) : M (list (list Theta)) :=
  match arrays with
  | [] => raise ValueError
  | _ => ret arrays
  end.

(** The vectorized branch: run [warmup_ + num_samples_] lockstep steps,
    drop the first [warmup_] timesteps of every chain, keep every
    [thin]-th of the rest. *)
Definition sample_chains_vectorized (initial_params : list Theta)
    (num_samples num_chains thin_ warmup_steps_ : nat)
  : M (list (list Theta)) :=
  x <- get x_o ;;
  let warmup_ := warmup_steps_ * thin_ in
  if Nat.eqb num_chains 0 then raise ZeroDivisionError
  else
    let num_samples_ := ceil_div (num_samples * thin_) num_chains in
    samples <- draw (SliceSamplerVectorized_run x initial_params
                       (warmup_ + num_samples_)) ;;
    let samples := map (skipn warmup_) samples in
    if Nat.eqb thin_ 0 then raise ValueError
    else ret (map (stride thin_) samples).

(** [samples[:, -1, :]]: the last timestep of every chain; an
    [IndexError] when the time axis is empty. *)
Fixpoint last_timestep (samples : list (list Theta))
  : option (list Theta) :=
  match samples with
  | [] => Some []
  | chain :: samples' =>
      match last_opt chain, last_timestep samples' with
      | Some theta, Some thetas => Some (theta :: thetas)
      | _, _ => None
      end
  end.

(** [_slice_np_mcmc(num_samples, potential_function, initial_params, thin,
    warmup_steps, vectorized)].  Returns the [num_samples x dim] rows. *)
Definition _slice_np_mcmc (num_samples : nat) (initial_params : list Theta)
    (thin_ warmup_steps_ : nat) (vectorized : bool) : M (list Theta) :=
  let num_chains_ := length initial_params in
  samples <-
    (if negb vectorized
     then all_samples <- sample_chains_sequentially initial_params
                           num_samples num_chains_ thin_ warmup_steps_ ;;
          np_stack all_samples
     else sample_chains_vectorized initial_params num_samples num_chains_
            thin_ warmup_steps_) ;;
  (* Save sample as potential next init. *)
  latest <- match last_timestep samples with
            | Some thetas => ret thetas
            | None => raise IndexError
            end ;;
  update (set__mcmc_init_params (Some latest)) ;;;
  let samples := firstn num_samples (concat samples) in
  assert (Nat.eqb (length samples) num_samples) ;;;
  ret samples.

(** *** Pyro kernels: [_pyro_mcmc] *)

(** [dict(slice=Slice, hmc=HMC, nuts=NUTS)]; a missing key is a [KeyError]
    at the lookup. *)
Definition kernels (mcmc_method_ : string) : option kernel :=
  if String.eqb mcmc_method_ "slice" then Some Slice
  else if String.eqb mcmc_method_ "hmc" then Some HMC
  else if String.eqb mcmc_method_ "nuts" then Some NUTS
  else None.

(** [_pyro_mcmc(num_samples, potential_function, initial_params,
    mcmc_method, thin, warmup_steps, num_chains)].  For [num_chains=None]
    the source subtracts 1 from the function object [mp.cpu_count], which
    is a [TypeError]. *)
Definition _pyro_mcmc (num_samples : nat) (initial_params : list Theta)
    (mcmc_method_ : string) (thin_ warmup_steps_ : nat)
    (num_chains_ : option nat) : M (list Theta) :=
  num_chains_ <- match num_chains_ with
                 | None => raise TypeError
                 | Some n => ret n
                 end ;;
  k <- match kernels mcmc_method_ with
       | Some k => ret k
       | None => raise KeyError
       end ;;
  x <- get x_o ;;
  if Nat.eqb num_chains_ 0 then raise ZeroDivisionError
  else
    samples <- draw (MCMC_run k x
                       ((thin_ * num_samples) / num_chains_ + num_chains_)
                       warmup_steps_ initial_params num_chains_) ;;
    if Nat.eqb thin_ 0 then raise ValueError
    else
      let samples := firstn num_samples (stride thin_ samples) in
      assert (Nat.eqb (length samples) num_samples) ;;;
      ret samples.

(** *** The public operation [sample] *)

(** [samples.reshape(sample_shape + (-1,))] on the [n x dim] rows. *)
Definition reshape_samples (sample_shape : list nat) (samples : list Theta)
  : M tensor :=
  match Torch.reshape_infer_last sample_shape (length samples * dim) with
  | Ok shape_ => ret {| shape := shape_; rows := samples |}
  | Raise e => raise e
  end.

(** The [if]/[elif]/[else] of [sample] under [torch.set_grad_enabled]: the
    internal sampling call selected by [self.method]. *)
Definition dispatch (method_ : string) (num_samples : nat)
    (initial_params : list Theta) (thin_ warmup_steps_ num_chains_ : nat)
  : M (list Theta) :=
  if str_in method_ ["slice_np"; "slice_np_vectorized"]
  then _slice_np_mcmc num_samples initial_params thin_ warmup_steps_
         (String.eqb method_ "slice_np_vectorized")
  else if str_in method_ ["hmc"; "nuts"; "slice"]
  then _pyro_mcmc num_samples initial_params method_ thin_
         warmup_steps_ (Some num_chains_)
  else raise NameError.

(** [sample(sample_shape, x)].  The initialisation function is built with
    the default [init_strategy] of [_build_mcmc_init_fn]: the call site
    passes prior, potential and transform only.  Dispatch reads
    [self.method]. *)
Definition sample (sample_shape : list nat) (x : option X) : M tensor :=
  x' <- _x_else_default_x x ;;
  set_x x' ;;;
  init_fn_ <- _build_mcmc_init_fn "prior" ;;
  num_chains_ <- get num_chains ;;
  inits <- init_fn_for_range num_chains_ init_fn_ ;;
  initial_params <- torch_cat inits ;;
  let num_samples := Torch.numel sample_shape in
  method_ <- get method ;;
  thin_ <- get thin ;;
  warmup_steps_ <- get warmup_steps ;;
  transformed_samples <-
    dispatch method_ num_samples initial_params thin_ warmup_steps_
      num_chains_ ;;
  let samples := map theta_transform_inv transformed_samples in
  reshape_samples sample_shape samples.

End Methods.

(** ** Vocabulary of the properties *)

Section Vocabulary.

Context {C : Collaborators}.

(** The method identifiers [sample] dispatches on. *)
Definition supported_methods : list string :=
  ["slice_np"; "slice_np_vectorized"; "hmc"; "nuts"; "slice"].

(** The branch of [_slice_np_mcmc] that fills the buffer. *)
Definition slice_np_buffer (num_samples : nat) (initial_params : list Theta)
    (thin_ warmup_steps_ : nat) (vectorized : bool)
  : M (list (list Theta)) :=
  if negb vectorized
  then all_samples <- sample_chains_sequentially initial_params
                        num_samples (length initial_params) thin_
                        warmup_steps_ ;;
       np_stack all_samples
  else sample_chains_vectorized initial_params num_samples
         (length initial_params) thin_ warmup_steps_.

(** Apply an attribute update to the instance of a world. *)
Definition on_self (f : MCMCPosterior -> MCMCPosterior) (w : world) : world :=
  {| self := f (self w); rng := rng w |}.

(** [m] never assigns the attribute [field]. *)
Definition keeps {A B} (field : MCMCPosterior -> B) (m : M A) : Prop :=
  forall w, field (self (fst (m w))) = field (self w).

(** [m] neither reads nor overwrites what [f] changes: running it after [f]
    gives the same result, the same generator, and the instance of the run
    without [f], updated by [f]. *)
Definition commutes {A} (f : MCMCPosterior -> MCMCPosterior) (m : M A)
  : Prop :=
  forall w, m (on_self f w) = (on_self f (fst (m w)), snd (m w)).

(** An update of attributes that [sample] does not read. *)
Record unread (f : MCMCPosterior -> MCMCPosterior) : Prop := {
  unread_method : forall p, method (f p) = method p;
  unread_thin : forall p, thin (f p) = thin p;
  unread_warmup_steps : forall p, warmup_steps (f p) = warmup_steps p;
  unread_num_chains : forall p, num_chains (f p) = num_chains p;
  unread_x_o : forall p, x_o (f p) = x_o p;
  unread_default_x : forall p, default_x (f p) = default_x p;
  unread_set_x_o : forall v p, f (set_x_o v p) = set_x_o v (f p);
  unread_set_init_params : forall v p,
    f (set__mcmc_init_params v p) = set__mcmc_init_params v (f p)
}.

(** The run [r] returned normally, in a world and with a value related by
    [Q]. *)
Definition returning {A} (Q : world -> A -> Prop) (r : world * result A)
  : Prop :=
  match r with
  | (w', Ok a) => Q w' a
  | (_, Raise _) => False
  end.

(** Started on an instance satisfying [I], the run [m] ends, normally or by
    an exception, on an instance satisfying [I]; a value it returns
    satisfies [post]. *)
Definition maintains {A} (I : MCMCPosterior -> Prop) (m : M A)
    (post : A -> Prop) : Prop :=
  forall w, I (self w) ->
    I (self (fst (m w))) /\ (forall a, snd (m w) = Ok a -> post a).

End Vocabulary.

(** ** The posterior-based potential: [class PosteriorPotential] *)

Module PosteriorPotential.
Section Potential.

(** One parameter row, the observation, and a float32 scalar. *)
Variables Theta X Float32 : Type.

(** [torch.tensor(float("-inf"), dtype=torch.float32)] *)
Variable neg_inf : Float32.

(** [self.posterior_model.log_prob(theta, context=x)] on one row paired
    with its context.  The constructor puts the network in [eval()] mode,
    so the value of a row does not depend on the rest of the batch. *)
Variable posterior_model_log_prob : Theta -> X -> Float32.

(** [within_support(self.prior, theta)] on one row. *)
Variable within_support : Theta -> bool.

(** The [theta] argument: a 1-D vector of [dim] entries or a 2-D batch. *)
Inductive theta_tensor : Type :=
| Theta1D (theta : Theta)
| Theta2D (thetas : list Theta).

(** The instance: the network and the prior are the section variables, the
    observation [x_o] (kept with a leading batch dimension of 1) is held by
    the base class [BasePotential]. *)
Record PosteriorPotential : Type := {
  x_o : option X
}.

(** Modelled from the spec: [ensure_theta_batched] (sbi.utils.torchutils,
    not under src/) gives a 1-D [theta] a leading batch dimension of 1 and
    leaves a batch as it is. *)
Definition ensure_theta_batched (theta : theta_tensor) : list Theta :=
  match theta with
  | Theta1D t => [t]
  | Theta2D ts => ts
  end.

(** Modelled from the spec: [match_theta_and_x_batch_shapes]
    (sbi.utils.sbiutils, not under src/) expands the single observation to
    the batch size of [theta] when that is larger than one.  With no
    observation bound the attribute access on [None] fails. *)
Definition match_theta_and_x_batch_shapes (theta : list Theta)
    (x : option X) : result (list Theta * list X) :=
  match x with
  | None => Raise AttributeError
  | Some x =>
      if Nat.ltb 1 (length theta)
      then Ok (theta, repeat x (length theta))
      else Ok (theta, [x])
  end.

(** The batched [log_prob] of the density estimator: one value per row,
    context rows paired with parameter rows; batch sizes must agree. *)
Definition log_prob (theta : list Theta) (context : list X)
  : result (list Float32) :=
  if Nat.eqb (length theta) (length context)
  then Ok (map (fun tx => posterior_model_log_prob (fst tx) (snd tx))
               (combine theta context))
  else Raise ValueError.

(** [torch.where(condition, input, other)] with a scalar [other]. *)
Definition torch_where (condition : list bool) (input : list Float32)
    (other : Float32) : list Float32 :=
  map (fun cv : bool * Float32 => if fst cv then snd cv else other)
      (combine condition input).

(** [PosteriorPotential.__call__(theta, track_gradients)].  Gradient
    tracking does not change the values returned. *)
Definition __call__ (self : PosteriorPotential) (theta : theta_tensor)
    (track_gradients : bool) : result (list Float32) :=
  let theta := ensure_theta_batched theta in
  match match_theta_and_x_batch_shapes theta (x_o self) with
  | Raise e => Raise e
  | Ok (theta, x_repeated) =>
      match log_prob theta x_repeated with
      | Raise e => Raise e
      | Ok posterior_log_prob =>
          (* Force probability to be zero outside prior support. *)
          let in_prior_support := map within_support theta in
          Ok (torch_where in_prior_support posterior_log_prob neg_inf)
      end
  end.

(** The value the potential gives one row under the observation [x]. *)
Definition masked_log_prob (x : X) (theta : Theta) : Float32 :=
  if within_support theta then posterior_model_log_prob theta x
  else neg_inf.

End Potential.
End PosteriorPotential.

(** ** The MAP estimate: [MCMCPosterior.map] *)

(** What [map] needs beyond the samplers: the prior's own [sample], and
    [gradient_ascent] (sbi.analysis), of whose result [(best point, best
    value)] the call keeps the point.  The ascent reads the observation
    bound on the potential when it runs. *)
Class MapCollaborators {C : Collaborators} : Type := {
  LearningRate : Type;
  (** [self.prior.sample((n,))] *)
  prior_sample : nat -> Rng -> list Theta * Rng;
  (** [gradient_ascent(potential_fn, inits, theta_transform, num_iter,
      num_to_optimize, learning_rate, save_best_every)[0]] *)
  gradient_ascent :
    option X -> list Theta -> nat -> nat -> LearningRate -> nat -> Theta
}.

Module MCMCPosteriorMAP.
Section Map.

Context {C : Collaborators} {MC : MapCollaborators}.

(** The [init_method] argument, [Union[str, Tensor]]. *)
Inductive init_method_arg : Type :=
| InitMethodStr (s : string)
| InitMethodTensor (locations : list Theta).

(** The instance together with its attribute [map_], which exists once [map]
    has assigned it. *)
Record map_world : Type := {
  posterior : world;
  map_ : option Theta
}.

(** The initial locations of the ascent.  A tensor compared with a string
    by [==] is [False], so a tensor falls through both tests to the
    [else]. [self.sample((num_init_samples,))] is called without [x]. *)
Definition map_inits (init_method : init_method_arg)
    (num_init_samples : nat) : M (list Theta) :=
  match init_method with
  | InitMethodStr s =>
      if String.eqb s "posterior"
      then t <- sample [num_init_samples] None ;; ret (rows t)
      else if String.eqb s "prior"
      then draw (prior_sample num_init_samples)
      else raise ValueError
  | InitMethodTensor _ => raise ValueError
  end.

(** [map] up to the assignment of [self.map_]: bind the observation, pick
    the initial locations, run the ascent. *)
Definition map_ascent (x : option X) (num_iter num_to_optimize : nat)
    (learning_rate : LearningRate) (init_method : init_method_arg)
    (num_init_samples save_best_every : nat) : M Theta :=
  x' <- _x_else_default_x x ;;
  set_x x' ;;;
  inits <- map_inits init_method num_init_samples ;;
  bound <- get x_o ;;
  ret (gradient_ascent bound inits num_iter num_to_optimize learning_rate
         save_best_every).

(** [map(x, num_iter, num_to_optimize, learning_rate, init_method,
    num_init_samples, save_best_every)]: the point found is assigned to
    [self.map_] and returned; an exception leaves [map_] alone. *)
Definition map (x : option X) (num_iter num_to_optimize : nat)
    (learning_rate : LearningRate) (init_method : init_method_arg)
    (num_init_samples save_best_every : nat) (mw : map_world)
  : map_world * result Theta :=
  match map_ascent x num_iter num_to_optimize learning_rate init_method
          num_init_samples save_best_every (posterior mw) with
  | (w', Ok best) => ({| posterior := w'; map_ := Some best |}, Ok best)
  | (w', Raise e) => ({| posterior := w'; map_ := map_ mw |}, Raise e)
  end.

End Map.
End MCMCPosteriorMAP.

(** ** A small concrete set of collaborators

    Parameters, observations and the generator state are natural numbers,
    [dim = 1].  Used to run the facade on concrete inputs. *)

Module Toy.

Definition gen (s : nat * nat) (n : nat) (g : nat)
  : list nat * (nat * nat) * nat :=
  (map (fun i => fst s + snd s * S i) (seq 0 n),
   (fst s + snd s * n, snd s),
   g + n).

Definition run (x : option nat) (init : list nat) (n : nat) (g : nat)
  : list (list nat) * nat :=
  (map (fun theta => map (fun i => theta + S i) (seq 0 n)) init, g + n).

Definition kernel_base (k : kernel) : nat :=
  match k with
  | Slice => 1000
  | HMC => 2000
  | NUTS => 3000
  end.

Definition mcmc_run (k : kernel) (x : option nat)
    (num_samples warmup : nat) (init : list nat) (num_chains : nat)
    (g : nat) : list nat * nat :=
  (map (fun i => kernel_base k + i) (seq 0 (num_chains * num_samples)),
   S g).

#[local] Instance collaborators : Collaborators.
Proof.
  refine {| Theta := nat;
            X := nat;
            Rng := nat;
            dim := 1;
            process_x := fun x => Nat.ltb 0 x;
            process_x_error := AssertionError;
            prior_init := fun g => (g, S g);
            sir := fun _ g => (g + 100, S g);
            theta_transform_inv := fun theta => theta;
            SliceSampler := (nat * nat)%type;
            SliceSampler_new := fun _ init thin_ => (init, thin_);
            SliceSampler_gen := gen;
            SliceSamplerVectorized_run := run;
            MCMC_run := mcmc_run |}.
  - intros s n g. unfold gen. simpl. now rewrite length_map, length_seq.
  - intros x init n g. unfold run. simpl. now rewrite length_map.
  - intros x init n g. unfold run. simpl.
    apply Forall_forall. intros chain Hin.
    apply in_map_iff in Hin. destruct Hin as [theta [<- _]].
    now rewrite length_map, length_seq.
  - intros k x num_samples warmup init num_chains g.
    unfold mcmc_run. simpl. now rewrite length_map, length_seq.
Defined.

(** A posterior built by the constructor, with the generator at [g]. *)
Definition fresh (method_ : string) (thin_ warmup_steps_ num_chains_ : nat)
    (init_strategy_ : string) (g : nat)
  : result (world (C := collaborators)) :=
  match __init__ (C := collaborators) None method_ thin_ warmup_steps_
          num_chains_ init_strategy_ 1000 with
  | Ok p => Ok {| self := p; rng := (g : Rng) |}
  | Raise e => Raise e
  end.

(** A potential over natural numbers: the prior's support is [theta < 10],
    [None] plays negative infinity. *)
Definition toy_log_prob (theta x : nat) : option nat := Some (theta + x).

Definition toy_within_support (theta : nat) : bool := Nat.ltb theta 10.

End Toy.

Module ToyMAP.

Definition draws (n g : nat) : list nat * nat := (seq g n, g + n).

(** The ascent of the small instance: the largest initial location, plus the
    bound observation. *)
Definition ascent (x : option nat) (inits : list nat)
    (num_iter num_to_optimize learning_rate save_best_every : nat) : nat :=
  list_max inits + match x with Some v => v | None => 0 end.

#[local] Instance collaborators : MapCollaborators (C := Toy.collaborators) :=
  @Build_MapCollaborators Toy.collaborators nat draws ascent.

(** An instance with its default observation set to [d]. *)
Definition with_default_x (d : nat)
    (p : MCMCPosterior (C := Toy.collaborators))
  : MCMCPosterior (C := Toy.collaborators) :=
  {| method := method p;
     thin := thin p;
     warmup_steps := warmup_steps p;
     num_chains := num_chains p;
     init_strategy := init_strategy p;
     init_strategy_num_candidates := init_strategy_num_candidates p;
     potential_track_gradients := potential_track_gradients p;
     potential_pyro := potential_pyro p;
     _mcmc_method := _mcmc_method p;
     _mcmc_init_params := _mcmc_init_params p;
     x_o := x_o p;
     default_x := Some d |}.

End ToyMAP.

(** * Properties *)

(** ** Slices, ceilings and rectangular buffers *)

Section SliceArithmetic.

Variable A : Type.

Lemma stride_from_covers (k skip : nat) (l : list A) :
  1 <= k -> length l <= skip + k * length (stride_from k skip l).
Proof.
  intros Hk. revert skip.
  induction l as [|a l IH]; intros skip; simpl; [lia|].
  destruct skip as [|j]; simpl.
  - specialize (IH (k - 1)). lia.
  - specialize (IH j). lia.
Qed.

Lemma stride_covers (k : nat) (l : list A) :
  1 <= k -> length l <= k * length (stride k l).
Proof.
  intros Hk. unfold stride.
  pose proof (stride_from_covers 0 l Hk). lia.
Qed.

Lemma concat_rectangular (m : nat) (ss : list (list A)) :
  Forall (fun chain => length chain = m) ss ->
  length (concat ss) = length ss * m.
Proof.
  induction 1 as [|chain ss Hc _ IH]; simpl; [reflexivity|].
  rewrite length_app, IH, Hc. reflexivity.
Qed.

Lemma last_opt_nonempty (l : list A) :
  1 <= length l -> exists a, last_opt l = Some a.
Proof.
  unfold last_opt. rewrite <- length_rev.
  destruct (rev l) as [|a r]; simpl; [lia|]. intros _. now exists a.
Qed.

End SliceArithmetic.

Lemma ceil_div_covers (a b : nat) : 1 <= b -> a <= b * ceil_div a b.
Proof.
  intros Hb. unfold ceil_div.
  pose proof (Nat.div_mod_eq a b) as Hdm.
  assert (Hlt : a mod b < b) by (apply Nat.mod_upper_bound; lia).
  destruct (Nat.eqb_spec (a mod b) 0) as [H0|H0]; nia.
Qed.

(** Reshaping [n] rows of length [d] to a shape of [n] elements with one
    inferred trailing dimension recovers [d]. *)
Lemma reshape_infer_last_rows (shape_ : list nat) (d : nat) :
  1 <= Torch.numel shape_ ->
  Torch.reshape_infer_last shape_ (Torch.numel shape_ * d)
  = Ok (shape_ ++ [d]).
Proof.
  intros Hn. unfold Torch.reshape_infer_last.
  destruct (Nat.eqb_spec (Torch.numel shape_) 0) as [H0|H0]; [lia|].
  rewrite (Nat.mul_comm (Torch.numel shape_) d).
  rewrite Nat.Div0.mod_mul. simpl.
  now rewrite Nat.div_mul.
Qed.

Lemma reshape_infer_last_zero (shape_ : list nat) (n : nat) :
  Torch.numel shape_ = 0 ->
  Torch.reshape_infer_last shape_ n = Raise RuntimeError.
Proof.
  intros H0. unfold Torch.reshape_infer_last. now rewrite H0.
Qed.

(** ** Which attributes a method reads and writes *)

Section Frames.

Context {C : Collaborators}.


Section Keeps.

Variables (B : Type) (field : MCMCPosterior -> B).

Lemma keeps_ret A (a : A) : keeps field (ret a).
Proof. intros w. reflexivity. Qed.

Lemma keeps_raise A (e : exn) : keeps field (raise (A := A) e).
Proof. intros w. reflexivity. Qed.

Lemma keeps_bind A A' (m : M A) (k : A -> M A') :
  keeps field m -> (forall a, keeps field (k a)) -> keeps field (bind m k).
Proof.
  intros Hm Hk w. unfold bind. specialize (Hm w).
  destruct (m w) as [w' [a|e]]; simpl in *.
  - now rewrite Hk.
  - exact Hm.
Qed.

Lemma keeps_get A (g : MCMCPosterior -> A) : keeps field (get g).
Proof. intros w. reflexivity. Qed.

Lemma keeps_draw A (f : Rng -> A * Rng) : keeps field (draw f).
Proof. intros w. unfold draw. now destruct (f (rng w)). Qed.

Lemma keeps_assert (b : bool) : keeps field (assert b).
Proof. destruct b; intros w; reflexivity. Qed.

Lemma keeps_update (f : MCMCPosterior -> MCMCPosterior) :
  (forall p, field (f p) = field p) -> keeps field (update f).
Proof. intros Hf w. simpl. apply Hf. Qed.

End Keeps.

Section Commutes.

Variable f : MCMCPosterior -> MCMCPosterior.

Lemma commutes_ret A (a : A) : commutes f (ret a).
Proof. intros w. reflexivity. Qed.

Lemma commutes_raise A (e : exn) : commutes f (raise (A := A) e).
Proof. intros w. reflexivity. Qed.

Lemma commutes_bind A A' (m : M A) (k : A -> M A') :
  commutes f m -> (forall a, commutes f (k a)) -> commutes f (bind m k).
Proof.
  intros Hm Hk w. unfold bind. rewrite Hm.
  destruct (m w) as [w' [a|e]]; simpl.
  - apply Hk.
  - reflexivity.
Qed.

Lemma commutes_get A (g : MCMCPosterior -> A) :
  (forall p, g (f p) = g p) -> commutes f (get g).
Proof. intros Hg w. unfold get. simpl. now rewrite Hg. Qed.

Lemma commutes_draw A (d : Rng -> A * Rng) : commutes f (draw d).
Proof. intros w. unfold draw. simpl. now destruct (d (rng w)). Qed.

Lemma commutes_assert (b : bool) : commutes f (assert b).
Proof. destruct b; intros w; reflexivity. Qed.

Lemma commutes_update (u : MCMCPosterior -> MCMCPosterior) :
  (forall p, f (u p) = u (f p)) -> commutes f (update u).
Proof. intros Hu w. unfold update, on_self. simpl. now rewrite Hu. Qed.

End Commutes.

End Frames.

Create HintDb frame.

#[local] Hint Resolve keeps_ret keeps_raise keeps_get keeps_draw
  keeps_assert : frame.
#[local] Hint Resolve commutes_ret commutes_raise commutes_draw
  commutes_assert : frame.

(** Peel one [bind], one conditional or one [match] off a frame goal. *)
Ltac frame_step :=
  match goal with
  | |- keeps _ (bind _ _) => apply keeps_bind; [|intros]
  | |- commutes _ (bind _ _) => apply commutes_bind; [|intros]
  | |- keeps _ (if ?b then _ else _) => destruct b
  | |- commutes _ (if ?b then _ else _) => destruct b
  | |- keeps _ (match ?v with _ => _ end) => destruct v
  | |- commutes _ (match ?v with _ => _ end) => destruct v
  end.

Ltac frame := repeat frame_step; auto with frame.

Section MethodFrames.

Context {C : Collaborators}.

Variable f : MCMCPosterior -> MCMCPosterior.
Hypothesis f_unread : unread f.

Lemma _x_else_default_x_commutes (x : option X) :
  commutes f (_x_else_default_x x).
Proof.
  unfold _x_else_default_x. destruct x as [v|]; frame.
  apply commutes_get, f_unread.
Qed.

Lemma set_x_commutes (x : X) : commutes f (set_x x).
Proof. apply commutes_update. intros p. apply f_unread. Qed.

Lemma call_init_fn_commutes (i : init_fn) : commutes f (call_init_fn i).
Proof.
  unfold call_init_fn. destruct i; frame.
  apply commutes_get, f_unread.
Qed.

Lemma init_fn_for_range_commutes (n : nat) (i : init_fn) :
  commutes f (init_fn_for_range n i).
Proof.
  revert i. induction n as [|n IH]; intros i; simpl; frame.
  apply call_init_fn_commutes.
Qed.

Lemma sample_chains_sequentially_commutes (chains : list Theta)
    (num_samples num_chains_ thin_ warmup_steps_ : nat) :
  commutes f (sample_chains_sequentially chains num_samples num_chains_
                thin_ warmup_steps_).
Proof.
  induction chains as [|init chains IH]; simpl; frame.
  apply commutes_get, f_unread.
Qed.

Lemma sample_chains_vectorized_commutes (initial_params : list Theta)
    (num_samples num_chains_ thin_ warmup_steps_ : nat) :
  commutes f (sample_chains_vectorized initial_params num_samples
                num_chains_ thin_ warmup_steps_).
Proof.
  unfold sample_chains_vectorized. frame.
  apply commutes_get, f_unread.
Qed.

Lemma _slice_np_mcmc_commutes (num_samples : nat)
    (initial_params : list Theta) (thin_ warmup_steps_ : nat)
    (vectorized : bool) :
  commutes f (_slice_np_mcmc num_samples initial_params thin_ warmup_steps_
                vectorized).
Proof.
  unfold _slice_np_mcmc, np_stack. frame.
  - apply sample_chains_sequentially_commutes.
  - apply sample_chains_vectorized_commutes.
  - apply commutes_update. intros p. apply f_unread.
Qed.

Lemma _pyro_mcmc_commutes (num_samples : nat) (initial_params : list Theta)
    (mcmc_method_ : string) (thin_ warmup_steps_ : nat)
    (num_chains_ : option nat) :
  commutes f (_pyro_mcmc num_samples initial_params mcmc_method_ thin_
                warmup_steps_ num_chains_).
Proof.
  unfold _pyro_mcmc. frame.
  apply commutes_get, f_unread.
Qed.

Lemma dispatch_commutes (method_ : string) (num_samples : nat)
    (initial_params : list Theta) (thin_ warmup_steps_ num_chains_ : nat) :
  commutes f (dispatch method_ num_samples initial_params thin_
                warmup_steps_ num_chains_).
Proof.
  unfold dispatch.
  destruct (str_in method_ ["slice_np"; "slice_np_vectorized"]).
  - apply _slice_np_mcmc_commutes.
  - destruct (str_in method_ ["hmc"; "nuts"; "slice"]).
    + apply _pyro_mcmc_commutes.
    + apply commutes_raise.
Qed.

Lemma sample_commutes (sample_shape : list nat) (x : option X) :
  commutes f (sample sample_shape x).
Proof.
  unfold sample.
  apply commutes_bind; [apply _x_else_default_x_commutes|intros x'].
  apply commutes_bind; [apply set_x_commutes|intros _].
  apply commutes_bind; [apply commutes_ret|intros i].
  apply commutes_bind; [apply commutes_get, f_unread|intros c].
  apply commutes_bind; [apply init_fn_for_range_commutes|intros inits].
  apply commutes_bind; [unfold torch_cat; frame|intros initial_params].
  apply commutes_bind; [apply commutes_get, f_unread|intros m].
  apply commutes_bind; [apply commutes_get, f_unread|intros t].
  apply commutes_bind; [apply commutes_get, f_unread|intros ws].
  apply commutes_bind; [apply dispatch_commutes|intros rows_].
  unfold reshape_samples. frame.
Qed.

End MethodFrames.

(** ** Methods that assign no attribute *)

Section MethodKeeps.

Context {C : Collaborators}.

Variables (B : Type) (field : MCMCPosterior -> B).

Lemma _x_else_default_x_keeps (x : option X) :
  keeps field (_x_else_default_x x).
Proof. unfold _x_else_default_x. destruct x as [v|]; frame. Qed.

Lemma call_init_fn_keeps (i : init_fn) : keeps field (call_init_fn i).
Proof. unfold call_init_fn. destruct i; frame. Qed.

Lemma init_fn_for_range_keeps (n : nat) (i : init_fn) :
  keeps field (init_fn_for_range n i).
Proof.
  revert i. induction n as [|n IH]; intros i; simpl; frame.
  apply call_init_fn_keeps.
Qed.

Lemma torch_cat_keeps (tensors : list Theta) : keeps field (torch_cat tensors).
Proof. unfold torch_cat. frame. Qed.

Lemma _pyro_mcmc_keeps (num_samples : nat) (initial_params : list Theta)
    (mcmc_method_ : string) (thin_ warmup_steps_ : nat)
    (num_chains_ : option nat) :
  keeps field (_pyro_mcmc num_samples initial_params mcmc_method_ thin_
                 warmup_steps_ num_chains_).
Proof. unfold _pyro_mcmc. frame. Qed.

Lemma reshape_samples_keeps (sample_shape : list nat)
    (samples : list Theta) :
  keeps field (reshape_samples sample_shape samples).
Proof. unfold reshape_samples. frame. Qed.

End MethodKeeps.

(** ** Runs that return *)

Section Outcomes.

Context {C : Collaborators}.


Lemma returning_bind A A' (m : M A) (k : A -> M A')
    (Q : world -> A -> Prop) (R : world -> A' -> Prop) (w : world) :
  returning Q (m w) ->
  (forall w' a, Q w' a -> returning R (k a w')) ->
  returning R (bind m k w).
Proof.
  intros Hm Hk. unfold bind.
  destruct (m w) as [w' [a|e]]; simpl in Hm; [|contradiction].
  now apply Hk.
Qed.

Lemma returning_weaken A (Q Q' : world -> A -> Prop) (r : world * result A) :
  returning Q r -> (forall w' a, Q w' a -> Q' w' a) -> returning Q' r.
Proof.
  destruct r as [w' [a|e]]; simpl; [|contradiction]. intros HQ Himp. auto.
Qed.

Lemma returning_inv A (Q : world -> A -> Prop) (r : world * result A) :
  returning Q r -> exists w' a, r = (w', Ok a) /\ Q w' a.
Proof.
  destruct r as [w' [a|e]]; simpl; [|contradiction]. intros HQ.
  now exists w', a.
Qed.

Lemma returning_draw A (d : Rng -> A * Rng) (w : world) :
  returning (fun w' a => self w' = self w /\ a = fst (d (rng w))
                         /\ rng w' = snd (d (rng w)))
            (draw d w).
Proof. unfold draw. destruct (d (rng w)); simpl. auto. Qed.

(** Initialisation from the prior yields one row per chain and assigns no
    attribute. *)
Lemma init_fn_for_range_prior (n : nat) (w : world) :
  returning (fun w' thetas => self w' = self w /\ length thetas = n)
            (init_fn_for_range n PriorInit w).
Proof.
  revert w. induction n as [|n IH]; intros w; simpl; [auto|].
  eapply returning_bind
    with (Q := fun w' (r : Theta * init_fn) =>
                 self w' = self w /\ snd r = PriorInit).
  - unfold call_init_fn. eapply returning_bind; [apply returning_draw|].
    intros w1 theta (H1 & _). simpl. auto.
  - intros w1 [theta i] [Hself Hi]. simpl in Hi. subst i. simpl.
    eapply returning_bind; [apply IH|].
    intros w2 thetas [Hself2 Hlen]. simpl. split; [congruence|lia].
Qed.

(** The sequential loop returns one buffer of [ceil(num_samples /
    num_chains)] draws per chain. *)
Lemma sample_chains_sequentially_buffer (chains : list Theta)
    (num_samples num_chains_ thin_ warmup_steps_ : nat) (w : world) :
  returning
    (fun w' samples =>
       self w' = self w /\ length samples = length chains /\
       Forall (fun chain => length chain = ceil_div num_samples num_chains_)
              samples)
    (sample_chains_sequentially chains num_samples num_chains_ thin_
       warmup_steps_ w).
Proof.
  revert w. induction chains as [|init chains IH]; intros w; simpl; [auto|].
  unfold bind at 1. simpl.
  set (s0 := SliceSampler_new (x_o (self w)) init thin_).
  eapply returning_bind
    with (Q := fun w' (_ : SliceSampler) => self w' = self w).
  - destruct (Nat.ltb 0 warmup_steps_); [|simpl; reflexivity].
    eapply returning_bind; [apply returning_draw|].
    intros w1 r [H1 _]. simpl. exact H1.
  - intros w1 s1 H1.
    eapply returning_bind; [apply returning_draw|].
    intros w2 r (H2 & Hr & _).
    eapply returning_bind; [apply IH|].
    intros w3 rest (H3 & Hlen & Hall). simpl.
    split; [congruence|]. split; [lia|].
    constructor; [|exact Hall].
    rewrite Hr. apply SliceSampler_gen_length.
Qed.

(** The vectorized branch: its buffer is the trajectory of one lockstep run
    with the warmup prefix dropped and every [thin]-th timestep kept. *)
Lemma sample_chains_vectorized_buffer (initial_params : list Theta)
    (num_samples num_chains_ thin_ warmup_steps_ : nat) (w : world) :
  1 <= num_chains_ -> 1 <= thin_ ->
  returning
    (fun w' samples =>
       self w' = self w /\
       samples =
         map (fun chain => stride thin_ (skipn (warmup_steps_ * thin_) chain))
             (fst (SliceSamplerVectorized_run (x_o (self w)) initial_params
                     (warmup_steps_ * thin_
                      + ceil_div (num_samples * thin_) num_chains_)
                     (rng w))))
    (sample_chains_vectorized initial_params num_samples num_chains_ thin_
       warmup_steps_ w).
Proof.
  intros Hc Ht. unfold sample_chains_vectorized.
  unfold bind at 1. simpl.
  destruct (Nat.eqb_spec num_chains_ 0) as [H0|_]; [lia|].
  eapply returning_bind; [apply returning_draw|].
  intros w1 samples (H1 & Hs & _).
  destruct (Nat.eqb_spec thin_ 0) as [H0|_]; [lia|].
  simpl. split; [exact H1|].
  rewrite Hs, map_map. reflexivity.
Qed.

End Outcomes.

Section SliceSampling.

Context {C : Collaborators}.

Lemma last_timestep_nonempty (samples : list (list Theta)) :
  Forall (fun chain => 1 <= length chain) samples ->
  exists latest,
    last_timestep samples = Some latest /\
    length latest = length samples /\
    Forall2 (fun chain theta => last_opt chain = Some theta) samples latest.
Proof.
  induction 1 as [|chain samples Hc _ IH]; simpl.
  - exists []. auto.
  - destruct IH as (latest & -> & Hlen & Hall).
    destruct (last_opt_nonempty chain Hc) as [theta Htheta].
    rewrite Htheta. exists (theta :: latest). simpl. auto.
Qed.

Lemma last_timestep_empty_chain (samples : list (list Theta)) :
  In [] samples -> last_timestep samples = None.
Proof.
  induction samples as [|chain samples IH]; simpl; [contradiction|].
  intros [->|Hin].
  - reflexivity.
  - rewrite (IH Hin). now destruct (last_opt chain).
Qed.

Lemma concat_strided (k L : nat) (ss : list (list Theta)) :
  Forall (fun chain => L <= k * length chain) ss ->
  length ss * L <= k * length (concat ss).
Proof.
  induction 1 as [|chain ss Hc _ IH]; simpl; [lia|].
  rewrite length_app. lia.
Qed.


(** Everything after the buffer is filled: a buffer with a non-empty time
    axis and at least [num_samples] rows has its last timestep saved and
    its first [num_samples] rows returned. *)
Lemma _slice_np_mcmc_of_buffer (P : list (list Theta) -> Prop)
    (num_samples : nat) (initial_params : list Theta)
    (thin_ warmup_steps_ : nat) (vectorized : bool) (w : world) :
  returning
    (fun w' samples =>
       self w' = self w /\ P samples /\
       Forall (fun chain => 1 <= length chain) samples /\
       num_samples <= length (concat samples))
    (slice_np_buffer num_samples initial_params thin_ warmup_steps_
       vectorized w) ->
  returning
    (fun w' rows_ =>
       length rows_ = num_samples /\
       exists samples latest,
         P samples /\
         rows_ = firstn num_samples (concat samples) /\
         last_timestep samples = Some latest /\
         length latest = length samples /\
         self w' = set__mcmc_init_params (Some latest) (self w))
    (_slice_np_mcmc num_samples initial_params thin_ warmup_steps_
       vectorized w).
Proof.
  intros Hbuf. unfold _slice_np_mcmc.
  eapply returning_bind; [exact Hbuf|].
  intros w1 samples (Hself & HP & Hne & Hn).
  destruct (last_timestep_nonempty Hne) as (latest & Hlast & Hlen & _).
  rewrite Hlast. unfold bind, ret, update, assert. simpl.
  assert (Hrows : length (firstn num_samples (concat samples)) = num_samples)
    by (rewrite length_firstn; lia).
  rewrite Hrows, Nat.eqb_refl. simpl.
  split; [exact Hrows|].
  exists samples, latest. rewrite Hself. auto.
Qed.

(** With at least one requested sample, either branch fills a buffer with a
    non-empty time axis and at least [num_samples] rows. *)
Lemma slice_np_buffer_enough (num_samples : nat)
    (initial_params : list Theta) (thin_ warmup_steps_ : nat)
    (vectorized : bool) (w : world) :
  1 <= num_samples -> 1 <= length initial_params -> 1 <= thin_ ->
  returning
    (fun w' samples =>
       self w' = self w /\
       (vectorized = true ->
        samples =
          map (fun chain =>
                 stride thin_ (skipn (warmup_steps_ * thin_) chain))
              (fst (SliceSamplerVectorized_run (x_o (self w)) initial_params
                      (warmup_steps_ * thin_
                       + ceil_div (num_samples * thin_)
                           (length initial_params))
                      (rng w)))) /\
       Forall (fun chain => 1 <= length chain) samples /\
       num_samples <= length (concat samples))
    (slice_np_buffer num_samples initial_params thin_ warmup_steps_
       vectorized w).
Proof.
  intros Hn Hc Ht. unfold slice_np_buffer.
  set (c := length initial_params) in *.
  destruct vectorized; simpl.
  - (* vectorized *)
    eapply returning_weaken;
      [apply sample_chains_vectorized_buffer; assumption|].
    intros w1 samples [Hself Hs]. split; [exact Hself|].
    split; [intros _; exact Hs|].
    set (L := ceil_div (num_samples * thin_) c) in *.
    set (traj := fst (SliceSamplerVectorized_run _ _ _ _)) in *.
    assert (HL : num_samples * thin_ <= c * L)
      by (apply ceil_div_covers; exact Hc).
    assert (Hkept : Forall (fun chain => L <= thin_ * length chain) samples).
    { rewrite Hs. apply Forall_map.
      eapply Forall_impl; [|apply SliceSamplerVectorized_run_steps].
      intros chain Hlen. simpl in Hlen.
      pose proof (stride_covers (skipn (warmup_steps_ * thin_) chain) Ht)
        as Hcov.
      rewrite length_skipn, Hlen in Hcov. lia. }
    assert (Hchains : length samples = c).
    { rewrite Hs, length_map. apply SliceSamplerVectorized_run_chains. }
    split.
    + eapply Forall_impl; [|exact Hkept]. intros chain Hk. simpl in Hk. nia.
    + pose proof Hkept as Htot. apply concat_strided in Htot.
      rewrite Hchains in Htot. nia.
  - (* sequential *)
    eapply returning_bind;
      [apply sample_chains_sequentially_buffer|].
    intros w1 samples (Hself & Hlen & Hall).
    fold c in Hlen.
    pose proof (ceil_div_covers num_samples Hc) as Hq. fold c in Hq.
    pose proof (concat_rectangular Hall) as Htot. rewrite Hlen in Htot.
    assert (Hne : Forall (fun chain => 1 <= length chain) samples).
    { eapply Forall_impl; [|exact Hall]. intros ch Hch. simpl in Hch. nia. }
    destruct samples as [|chain samples]; [simpl in Hlen; lia|].
    unfold np_stack, ret, returning.
    split; [exact Hself|]. split; [discriminate|].
    split; [exact Hne|]. rewrite Htot. nia.
Qed.

(** X6.  With no sample requested either branch fills a buffer whose time
    axis is empty, and saving the last timestep raises: the call never
    reaches its truncation. *)
Lemma _slice_np_mcmc_zero_samples (initial_params : list Theta)
    (thin_ warmup_steps_ : nat) (vectorized : bool) (w : world) :
  1 <= length initial_params -> 1 <= thin_ ->
  snd (_slice_np_mcmc 0 initial_params thin_ warmup_steps_ vectorized w)
  = Raise IndexError.
Proof.
  intros Hc Ht.
  assert (Hq : forall c, ceil_div 0 c = 0).
  { intros c. unfold ceil_div.
    now rewrite Nat.Div0.mod_0_l, Nat.Div0.div_0_l. }
  assert (Hbuf : returning
                   (fun _ samples => exists chains, samples = [] :: chains)
                   (slice_np_buffer 0 initial_params thin_ warmup_steps_
                      vectorized w)).
  { unfold slice_np_buffer. destruct vectorized; simpl negb; cbv iota.
    - eapply returning_weaken;
        [apply sample_chains_vectorized_buffer; assumption|].
      intros w1 samples [_ ->].
      pose proof (SliceSamplerVectorized_run_chains (x_o (self w))
                    initial_params
                    (warmup_steps_ * thin_
                     + ceil_div (0 * thin_) (length initial_params))
                    (rng w)) as Hlen.
      pose proof (SliceSamplerVectorized_run_steps (x_o (self w))
                    initial_params
                    (warmup_steps_ * thin_
                     + ceil_div (0 * thin_) (length initial_params))
                    (rng w)) as Hsteps.
      destruct (fst (SliceSamplerVectorized_run _ _ _ _))
        as [|chain chains]; [simpl in Hlen; lia|].
      inversion Hsteps as [|? ? Hchain _]; subst.
      simpl. exists
        (map (fun ch => stride thin_ (skipn (warmup_steps_ * thin_) ch))
             chains).
      f_equal.
      assert (Hnil : skipn (warmup_steps_ * thin_) chain = []).
      { apply length_zero_iff_nil. rewrite length_skipn, Hchain.
        simpl. rewrite Hq. lia. }
      now rewrite Hnil.
    - eapply returning_bind; [apply sample_chains_sequentially_buffer|].
      intros w1 samples (_ & Hlen & Hall).
      destruct samples as [|chain chains]; [simpl in Hlen; lia|].
      inversion Hall as [|? ? Hchain _]; subst.
      rewrite Hq in Hchain. apply length_zero_iff_nil in Hchain. subst chain.
      simpl. now exists chains. }
  unfold _slice_np_mcmc. fold (slice_np_buffer 0 initial_params thin_
                                 warmup_steps_ vectorized).
  unfold bind at 1.
  destruct (slice_np_buffer 0 initial_params thin_ warmup_steps_
              vectorized w) as [w1 [samples|e]];
    simpl in Hbuf; [|contradiction].
  destruct Hbuf as [chains ->]. reflexivity.
Qed.

End SliceSampling.

Section Dispatch.

Context {C : Collaborators}.

Lemma str_in_In (s : string) (ts : list string) :
  str_in s ts = true <-> In s ts.
Proof.
  induction ts as [|t ts IH]; simpl; [split; [discriminate|contradiction]|].
  rewrite orb_true_iff, IH, String.eqb_eq. split; intros [H|H]; auto.
Qed.

(** The Pyro adapter on a known kernel: the draws requested per chain, and
    the rows returned. *)
Lemma _pyro_mcmc_rows (num_samples : nat) (initial_params : list Theta)
    (mcmc_method_ : string) (k : kernel) (thin_ warmup_steps_ num_chains_ : nat)
    (w : world) :
  kernels mcmc_method_ = Some k -> 1 <= thin_ -> 1 <= num_chains_ ->
  let requested := (thin_ * num_samples) / num_chains_ + num_chains_ in
  let run := MCMC_run k (x_o (self w)) requested warmup_steps_
               initial_params num_chains_ (rng w) in
  num_samples <= length (stride thin_ (fst run)) /\
  _pyro_mcmc num_samples initial_params mcmc_method_ thin_ warmup_steps_
    (Some num_chains_) w
  = ({| self := self w; rng := snd run |},
     Ok (firstn num_samples (stride thin_ (fst run)))).
Proof.
  intros Hk Ht Hc requested run.
  assert (Hflat : length (fst run) = num_chains_ * requested)
    by apply MCMC_run_length.
  assert (Henough : num_samples <= length (stride thin_ (fst run))).
  { pose proof (stride_covers (fst run) Ht) as Hcov.
    pose proof (Nat.div_mod_eq (thin_ * num_samples) num_chains_) as Hdm.
    assert (Hlt : (thin_ * num_samples) mod num_chains_ < num_chains_)
      by (apply Nat.mod_upper_bound; lia).
    subst requested. nia. }
  split; [exact Henough|].
  unfold _pyro_mcmc, bind, ret, get, draw, assert. simpl.
  rewrite Hk.
  destruct (Nat.eqb_spec num_chains_ 0) as [H0|_]; [lia|].
  fold requested. fold run. destruct run as [flat g]. simpl in *.
  destruct (Nat.eqb_spec thin_ 0) as [H0|_]; [lia|].
  rewrite length_firstn, Nat.min_l, Nat.eqb_refl by exact Henough.
  reflexivity.
Qed.

Lemma kernels_supported (mcmc_method_ : string) :
  str_in mcmc_method_ ["hmc"; "nuts"; "slice"] = true ->
  str_in mcmc_method_ ["slice_np"; "slice_np_vectorized"] = false /\
  exists k, kernels mcmc_method_ = Some k.
Proof.
  intros H. apply str_in_In in H. simpl in H.
  destruct H as [<-|[<-|[<-|[]]]]; (split; [reflexivity|]);
    eexists; reflexivity.
Qed.

End Dispatch.

(** ** Invariants of the instance *)

Section Invariants.

Context {C : Collaborators}.


Variable I : MCMCPosterior -> Prop.

Lemma maintains_bind A A' (m : M A) (k : A -> M A')
    (mid : A -> Prop) (post : A' -> Prop) :
  maintains I m mid ->
  (forall a, mid a -> maintains I (k a) post) ->
  maintains I (bind m k) post.
Proof.
  intros Hm Hk w HI. unfold bind.
  destruct (Hm w HI) as [HI' Hmid].
  destruct (m w) as [w' [a|e]]; simpl in *.
  - apply (Hk a); auto.
  - split; [exact HI'|discriminate].
Qed.

Lemma maintains_keeps A (m : M A) :
  keeps (fun p => p) m -> maintains I m (fun _ => True).
Proof. intros Hm w HI. rewrite Hm. auto. Qed.

Lemma maintains_get A (field : MCMCPosterior -> A) (post : A -> Prop) :
  (forall p, I p -> post (field p)) -> maintains I (get field) post.
Proof.
  intros Hp w HI. simpl. split; [exact HI|].
  intros a [= <-]. auto.
Qed.

Lemma maintains_update (f : MCMCPosterior -> MCMCPosterior) :
  (forall p, I p -> I (f p)) -> maintains I (update f) (fun _ => True).
Proof. intros Hf w HI. simpl. auto. Qed.

End Invariants.

(** ** The internal sampling call *)

Section InternalCall.

Context {C : Collaborators}.


Lemma supported_methods_split (method_ : string) :
  str_in method_ supported_methods
  = str_in method_ ["slice_np"; "slice_np_vectorized"]
    || str_in method_ ["hmc"; "nuts"; "slice"].
Proof.
  unfold supported_methods. simpl.
  repeat match goal with |- context [String.eqb ?a ?b] =>
    destruct (String.eqb a b) end; reflexivity.
Qed.

Lemma bind_get A A' (field : MCMCPosterior -> A) (k : A -> M A')
    (w : world) :
  bind (get field) k w = k (field (self w)) w.
Proof. reflexivity. Qed.

Lemma dispatch_returning (method_ : string) (num_samples : nat)
    (initial_params : list Theta) (thin_ warmup_steps_ num_chains_ : nat)
    (w : world) :
  str_in method_ supported_methods = true ->
  1 <= thin_ -> 1 <= num_chains_ -> length initial_params = num_chains_ ->
  1 <= num_samples \/ str_in method_ ["hmc"; "nuts"; "slice"] = true ->
  returning (fun _ rows_ => length rows_ = num_samples)
    (dispatch method_ num_samples initial_params thin_ warmup_steps_
       num_chains_ w).
Proof.
  intros Hm Ht Hc Hlen Hn. unfold dispatch.
  rewrite supported_methods_split in Hm.
  destruct (str_in method_ ["slice_np"; "slice_np_vectorized"]) eqn:Hslice.
  - assert (Hn' : 1 <= num_samples).
    { destruct Hn as [Hn|Hp]; [exact Hn|].
      apply kernels_supported in Hp. destruct Hp as [Hp _]. congruence. }
    eapply returning_weaken.
    + apply _slice_np_mcmc_of_buffer with (P := fun _ => True).
      eapply returning_weaken.
      * apply slice_np_buffer_enough; [exact Hn'|lia|exact Ht].
      * intros w1 samples (Hself & _ & Hne & Htot). auto.
    + intros w1 rows_ [Hrows _]. exact Hrows.
  - rewrite orb_false_l in Hm. rewrite Hm.
    destruct (kernels_supported _ Hm) as [_ [k Hk]].
    destruct (_pyro_mcmc_rows num_samples initial_params _ warmup_steps_ w
                Hk Ht Hc) as [Henough Heq].
    rewrite Heq. simpl. rewrite length_firstn. lia.
Qed.

Lemma sample_unfold (sample_shape : list nat) (x : X) (w : world) :
  process_x x = true ->
  sample sample_shape (Some x) w
  = bind (init_fn_for_range (num_chains (self w)) PriorInit)
      (fun inits =>
         initial_params <- torch_cat inits ;;
         method_ <- get method ;;
         thin_ <- get thin ;;
         warmup_steps_ <- get warmup_steps ;;
         transformed_samples <-
           dispatch method_ (Torch.numel sample_shape) initial_params thin_
             warmup_steps_ (num_chains (self w)) ;;
         reshape_samples sample_shape
           (map theta_transform_inv transformed_samples))
      (on_self (set_x_o (Some x)) w).
Proof.
  intros Hx. unfold sample, _x_else_default_x. rewrite Hx. reflexivity.
Qed.

End InternalCall.

(** ** Shapes and row counts *)

Section RowCounts.

Context {C : Collaborators}.

Lemma bind_ret A A' (a : A) (k : A -> M A') (w : world) :
  bind (ret a) k w = k a w.
Proof. reflexivity. Qed.

(** C1 (amended).  For every sample shape [S] whose dimensions are all
    positive, every supported method, a run configuration with [thin >= 1]
    and [num_chains >= 1], and conditioning data that passes the shape
    check, [sample(S, x)] returns a tensor of shape [S + (dim,)] holding
    [prod S] rows. *)
Theorem sample_returns_requested_shape (sample_shape : list nat) (x : X)
    (w : world) :
  str_in (method (self w)) supported_methods = true ->
  1 <= thin (self w) ->
  1 <= num_chains (self w) ->
  process_x x = true ->
  1 <= Torch.numel sample_shape ->
  exists w' t,
    sample sample_shape (Some x) w = (w', Ok t) /\
    shape t = sample_shape ++ [dim] /\
    length (rows t) = Torch.numel sample_shape.
Proof.
  intros Hm Ht Hc Hx Hn.
  apply returning_inv
    with (Q := fun (_ : world) t =>
                 shape t = sample_shape ++ [dim] /\
                 length (rows t) = Torch.numel sample_shape).
  rewrite sample_unfold by exact Hx.
  eapply returning_bind; [apply init_fn_for_range_prior|].
  intros w1 inits [Hself Hlen]. simpl in Hself.
  destruct inits as [|theta inits]; [simpl in Hlen; lia|].
  unfold torch_cat. rewrite bind_ret, !bind_get, Hself. simpl.
  eapply returning_bind.
  - apply dispatch_returning; [exact Hm|exact Ht|exact Hc|exact Hlen|].
    left. exact Hn.
  - intros w2 rows_ Hrows. unfold reshape_samples.
    rewrite length_map, Hrows, reshape_infer_last_rows by exact Hn.
    simpl. split; [reflexivity|]. now rewrite length_map.
Qed.

(** C2 (amended).  For every supported method and every run configuration
    with [thin >= 1], [num_chains >= 1] and [warmup_steps >= 0], the
    internal sampling call returns exactly [num_samples] rows, so its
    assertion does not fire, provided [num_samples >= 1]; for the Pyro
    kernels [num_samples = 0] is covered as well. *)
Theorem dispatch_returns_num_samples (method_ : string) (num_samples : nat)
    (initial_params : list Theta) (thin_ warmup_steps_ num_chains_ : nat)
    (w : world) :
  str_in method_ supported_methods = true ->
  1 <= thin_ -> 1 <= num_chains_ -> 0 <= warmup_steps_ ->
  length initial_params = num_chains_ ->
  1 <= num_samples \/ str_in method_ ["hmc"; "nuts"; "slice"] = true ->
  exists w' rows_,
    dispatch method_ num_samples initial_params thin_ warmup_steps_
      num_chains_ w = (w', Ok rows_) /\
    length rows_ = num_samples.
Proof.
  intros Hm Ht Hc _ Hlen Hn.
  apply returning_inv with (Q := fun (_ : world) rows_ =>
                                   length rows_ = num_samples).
  now apply dispatch_returning.
Qed.

(** C6.  For [num_samples >= 1], [thin >= 1] and [num_chains >= 1] the Pyro
    adapter requests [(thin * num_samples) // num_chains + num_chains] draws
    per chain; the flattened result has [num_chains] times that many rows,
    at least [num_samples] of them survive keeping every [thin]-th row, and
    the adapter returns the first [num_samples] of those. *)
Theorem pyro_mcmc_over_provisioning (num_samples : nat)
    (initial_params : list Theta) (mcmc_method_ : string) (k : kernel)
    (thin_ warmup_steps_ num_chains_ : nat) (w : world) :
  1 <= num_samples -> 1 <= thin_ -> 1 <= num_chains_ ->
  kernels mcmc_method_ = Some k ->
  let requested := (thin_ * num_samples) / num_chains_ + num_chains_ in
  let run := MCMC_run k (x_o (self w)) requested warmup_steps_
               initial_params num_chains_ (rng w) in
  let returned := firstn num_samples (stride thin_ (fst run)) in
  length (fst run) = num_chains_ * requested /\
  num_samples <= length (stride thin_ (fst run)) /\
  length returned = num_samples /\
  _pyro_mcmc num_samples initial_params mcmc_method_ thin_ warmup_steps_
    (Some num_chains_) w
  = ({| self := self w; rng := snd run |}, Ok returned).
Proof.
  intros _ Ht Hc Hk requested run returned.
  destruct (_pyro_mcmc_rows num_samples initial_params _ warmup_steps_ w
              Hk Ht Hc) as [Henough Heq].
  fold requested in Henough, Heq. fold run in Henough, Heq.
  split; [apply MCMC_run_length|].
  split; [exact Henough|].
  split; [|exact Heq].
  unfold returned. rewrite length_firstn. lia.
Qed.

(** C7 (amended).  For [num_samples >= 1], [thin >= 1] and at least one
    chain, the vectorized slice-sampler path makes one run of
    [warmup_steps * thin + ceil(num_samples * thin / num_chains)] steps per
    chain; the first [warmup_steps * thin] timesteps are dropped, every
    [thin]-th of the rest is kept, the chains are flattened and the result
    is cut to [num_samples] rows, exactly that many, which the call
    returns. *)
Theorem slice_np_vectorized_schedule (num_samples : nat)
    (initial_params : list Theta) (thin_ warmup_steps_ : nat) (w : world) :
  1 <= num_samples -> 1 <= thin_ -> 1 <= length initial_params ->
  let num_chains_ := length initial_params in
  let steps := warmup_steps_ * thin_
               + ceil_div (num_samples * thin_) num_chains_ in
  let trajectory := fst (SliceSamplerVectorized_run (x_o (self w))
                           initial_params steps (rng w)) in
  let kept := map (fun chain =>
                     stride thin_ (skipn (warmup_steps_ * thin_) chain))
                  trajectory in
  let returned := firstn num_samples (concat kept) in
  length trajectory = num_chains_ /\
  Forall (fun chain => length chain = steps) trajectory /\
  returning (fun _ samples => samples = kept)
    (sample_chains_vectorized initial_params num_samples num_chains_ thin_
       warmup_steps_ w) /\
  length returned = num_samples /\
  exists w',
    _slice_np_mcmc num_samples initial_params thin_ warmup_steps_ true w
    = (w', Ok returned).
Proof.
  intros Hn Ht Hc num_chains_ steps trajectory kept returned.
  assert (Hbuf : returning (fun w' samples => self w' = self w
                                              /\ samples = kept)
                   (sample_chains_vectorized initial_params num_samples
                      num_chains_ thin_ warmup_steps_ w))
    by (apply sample_chains_vectorized_buffer; assumption).
  assert (Hkept : Forall (fun chain =>
                            ceil_div (num_samples * thin_) num_chains_
                            <= thin_ * length chain) kept).
  { unfold kept. apply Forall_map.
    eapply Forall_impl; [|apply SliceSamplerVectorized_run_steps].
    intros chain Hlen. simpl in Hlen.
    pose proof (stride_covers (skipn (warmup_steps_ * thin_) chain) Ht)
      as Hcov.
    rewrite length_skipn, Hlen in Hcov. lia. }
  assert (Htot : num_samples <= length (concat kept)).
  { pose proof Hkept as Hs. apply concat_strided in Hs.
    unfold kept in Hs at 1. rewrite length_map in Hs.
    unfold trajectory in Hs at 1.
    rewrite SliceSamplerVectorized_run_chains in Hs.
    pose proof (ceil_div_covers (num_samples * thin_) Hc) as Hq.
    fold num_chains_ in Hq, Hs. nia. }
  split; [apply SliceSamplerVectorized_run_chains|].
  split; [apply SliceSamplerVectorized_run_steps|].
  split; [eapply returning_weaken; [exact Hbuf|]; now intros w1 s [_ ->]|].
  split; [unfold returned; rewrite length_firstn; lia|].
  eassert (Hret : returning _ (_slice_np_mcmc num_samples initial_params
                                 thin_ warmup_steps_ true w)).
  { apply _slice_np_mcmc_of_buffer with (P := fun samples => samples = kept).
    eapply returning_weaken; [apply slice_np_buffer_enough; assumption|].
    intros w1 samples (Hself & Hs & Hne & Hn'). auto. }
  apply returning_inv in Hret.
  destruct Hret as (w' & rows_ & Heq & _ & samples & latest & -> & -> & _).
  now exists w'.
Qed.

End RowCounts.

(** ** Configuration and retained state *)

Section Configuration.

Context {C : Collaborators}.

Lemma set_init_strategy_unread (strategy : string) :
  unread (set_init_strategy strategy).
Proof. split; reflexivity. Qed.

Lemma set__mcmc_method_unread (v : option string) :
  unread (set__mcmc_method v).
Proof. split; reflexivity. Qed.

(** C3.  [sample] does not consult the configured initialisation strategy:
    run on an instance whose [init_strategy] was replaced by any string, it
    returns the same result and leaves the same generator and attributes as
    on the original instance.  Its initial parameters are built with the
    strategy ["prior"] whatever is configured. *)
Theorem sample_ignores_init_strategy (strategy : string)
    (sample_shape : list nat) (x : option X) (w : world) :
  sample sample_shape x (on_self (set_init_strategy strategy) w)
  = (on_self (set_init_strategy strategy) (fst (sample sample_shape x w)),
     snd (sample sample_shape x w)).
Proof. apply sample_commutes, set_init_strategy_unread. Qed.

(** Called directly with ["latest_sample"], the builder does fail while no
    state has been retained. *)
Lemma _build_mcmc_init_fn_latest_sample_unset (w : world) :
  _mcmc_init_params (self w) = None ->
  _build_mcmc_init_fn "latest_sample" w = (w, Raise AttributeError).
Proof.
  intros Hnone. unfold _build_mcmc_init_fn. simpl.
  rewrite bind_get, Hnone. reflexivity.
Qed.

(** C9.  [set_mcmc_method(m)] assigns [_mcmc_method] only: [self.method],
    on which [sample] dispatches, is unchanged, and a following [sample]
    returns what it returns without the setter call. *)
Theorem set_mcmc_method_does_not_redirect_sample (m : string)
    (sample_shape : list nat) (x : option X) (w : world) :
  let w1 := fst (set_mcmc_method m w) in
  method (self w1) = method (self w) /\
  _mcmc_method (self w1) = Some m /\
  sample sample_shape x w1
  = (on_self (set__mcmc_method (Some m)) (fst (sample sample_shape x w)),
     snd (sample sample_shape x w)).
Proof.
  simpl. split; [reflexivity|]. split; [reflexivity|].
  apply (sample_commutes (set__mcmc_method_unread (Some m))).
Qed.

(** C8.  With a Pyro kernel configured, [sample] leaves [_mcmc_init_params]
    as it found it: nothing is retained for a later ["latest_sample"]
    initialisation. *)
Theorem pyro_sample_retains_no_state (sample_shape : list nat)
    (x : option X) (w : world) :
  str_in (method (self w)) ["hmc"; "nuts"; "slice"] = true ->
  _mcmc_init_params (self (fst (sample sample_shape x w)))
  = _mcmc_init_params (self w).
Proof.
  intros Hpyro.
  set (I := fun p : MCMCPosterior =>
              method p = method (self w) /\
              _mcmc_init_params p = _mcmc_init_params (self w)).
  assert (Hsample : maintains I (sample sample_shape x) (fun _ => True)).
  { unfold sample.
    eapply maintains_bind;
      [apply maintains_keeps, _x_else_default_x_keeps|intros x' _].
    eapply maintains_bind;
      [apply maintains_update; intros p Hp; exact Hp|intros _ _].
    eapply maintains_bind; [apply maintains_keeps, keeps_ret|intros i _].
    eapply maintains_bind;
      [apply maintains_keeps, keeps_get|intros c _].
    eapply maintains_bind;
      [apply maintains_keeps, init_fn_for_range_keeps|intros inits _].
    eapply maintains_bind;
      [apply maintains_keeps, torch_cat_keeps|intros initial_params _].
    eapply maintains_bind with (mid := fun a => a = method (self w));
      [apply maintains_get; intros p [Hp _]; exact Hp|intros m_ ->].
    eapply maintains_bind;
      [apply maintains_keeps, keeps_get|intros t _].
    eapply maintains_bind;
      [apply maintains_keeps, keeps_get|intros ws _].
    eapply maintains_bind.
    - unfold dispatch.
      destruct (kernels_supported _ Hpyro) as [-> _]. rewrite Hpyro.
      apply maintains_keeps, _pyro_mcmc_keeps.
    - intros rows_ _. apply maintains_keeps, reshape_samples_keeps. }
  destruct (Hsample w) as [[_ Hkept] _]; [split; reflexivity|].
  exact Hkept.
Qed.

(** C5 (amended).  A method identifier outside the supported set that does
    not contain ["slice_np"] is rejected by the constructor with a
    not-implemented error.  One that contains ["slice_np"] passes
    construction, and the failure is the naming error raised at dispatch
    inside [sample]. *)
Theorem unsupported_method_fails (potential_x_o : option X)
    (method_ : string) (thin_ warmup_steps_ num_chains_ : nat)
    (init_strategy_ : string) (init_strategy_num_candidates_ : nat) :
  str_in method_ supported_methods = false ->
  (str_contains "slice_np" method_ = false ->
   __init__ potential_x_o method_ thin_ warmup_steps_ num_chains_
     init_strategy_ init_strategy_num_candidates_
   = Raise NotImplementedError) /\
  (str_contains "slice_np" method_ = true ->
   exists p,
     __init__ potential_x_o method_ thin_ warmup_steps_ num_chains_
       init_strategy_ init_strategy_num_candidates_ = Ok p /\
     method p = method_ /\
     forall sample_shape x g,
       process_x x = true -> 1 <= num_chains_ ->
       snd (sample sample_shape (Some x) {| self := p; rng := g |})
       = Raise NameError).
Proof.
  intros Hm. rewrite supported_methods_split in Hm.
  apply orb_false_iff in Hm. destruct Hm as [Hslice Hpyro].
  assert (Hs : String.eqb method_ "slice" = false).
  { simpl in Hpyro. repeat (apply orb_false_iff in Hpyro;
                            destruct Hpyro as [? Hpyro]). assumption. }
  assert (Hhn : str_in method_ ["hmc"; "nuts"] = false).
  { simpl in Hpyro |- *. repeat (apply orb_false_iff in Hpyro;
                                destruct Hpyro as [? Hpyro]).
    repeat (apply orb_false_iff; split); assumption. }
  unfold __init__. rewrite Hs, Hhn. split; intros Hnp; rewrite Hnp.
  - reflexivity.
  - eexists. split; [reflexivity|]. split; [reflexivity|].
    intros sample_shape x g Hx Hc.
    rewrite sample_unfold by exact Hx. unfold bind at 1.
    match goal with |- context [init_fn_for_range ?n PriorInit ?w0] =>
      pose proof (init_fn_for_range_prior n w0) as Hinit;
      destruct (init_fn_for_range n PriorInit w0) as [w1 [inits|e]]
    end; simpl in Hinit; [|contradiction].
    destruct Hinit as [Hself Hlen].
    destruct inits as [|theta inits]; [simpl in Hlen; lia|].
    unfold torch_cat. rewrite bind_ret, !bind_get, Hself. simpl method.
    unfold dispatch. rewrite Hslice, Hpyro. reflexivity.
Qed.

End Configuration.

(** ** The potential outside and inside the prior's support *)

Section PotentialFacts.

Import PosteriorPotential.

Variables Theta X Float32 : Type.
Variable neg_inf : Float32.
Variable posterior_model_log_prob : Theta -> X -> Float32.
Variable within_support : Theta -> bool.

Lemma log_prob_repeated (x : X) (thetas : list Theta) (n : nat) :
  n = length thetas ->
  map (fun tx : Theta * X => posterior_model_log_prob (fst tx) (snd tx))
      (combine thetas (repeat x n))
  = map (fun theta => posterior_model_log_prob theta x) thetas.
Proof.
  intros ->. induction thetas as [|theta thetas IH]; simpl; [reflexivity|].
  now rewrite IH.
Qed.

Lemma torch_where_rows (x : X) (thetas : list Theta) :
  torch_where (map within_support thetas)
    (map (fun theta => posterior_model_log_prob theta x) thetas) neg_inf
  = map (masked_log_prob neg_inf posterior_model_log_prob within_support x)
      thetas.
Proof.
  unfold torch_where, masked_log_prob.
  induction thetas as [|theta thetas IH]; simpl; [reflexivity|].
  now rewrite IH.
Qed.

Lemma __call___batched (self : PosteriorPotential X) (x : X)
    (thetas : list Theta) (track_gradients : bool) :
  x_o self = Some x -> thetas <> [] ->
  __call__ neg_inf posterior_model_log_prob within_support self
    (Theta2D thetas) track_gradients
  = Ok (map (masked_log_prob neg_inf posterior_model_log_prob within_support x)
          thetas).
Proof.
  intros Hx Hne.
  unfold __call__, ensure_theta_batched, match_theta_and_x_batch_shapes.
  rewrite Hx.
  destruct (Nat.ltb_spec 1 (length thetas)) as [Hlt|Hle].
  - unfold log_prob. rewrite repeat_length, Nat.eqb_refl.
    rewrite log_prob_repeated by reflexivity.
    now rewrite torch_where_rows.
  - destruct thetas as [|theta [|theta' thetas]];
      [contradiction| |simpl in Hle; lia].
    reflexivity.
Qed.

(** C4.  With an observation bound, evaluating the potential on a batch of
    parameter vectors raises nothing; a row outside the prior's support
    gets negative infinity, a row inside it gets the log-probability of the
    posterior model unchanged. *)
Theorem potential_masks_prior_support (self : PosteriorPotential X) (x : X)
    (thetas : list Theta) (track_gradients : bool) :
  x_o self = Some x -> thetas <> [] ->
  exists values,
    __call__ neg_inf posterior_model_log_prob within_support self
      (Theta2D thetas) track_gradients = Ok values /\
    length values = length thetas /\
    forall i theta,
      nth_error thetas i = Some theta ->
      (within_support theta = false -> nth_error values i = Some neg_inf) /\
      (within_support theta = true ->
       nth_error values i = Some (posterior_model_log_prob theta x)).
Proof.
  intros Hx Hne.
  exists (map (masked_log_prob neg_inf posterior_model_log_prob within_support x)
            thetas).
  split; [now apply __call___batched|].
  split; [apply length_map|].
  intros i theta Hi.
  rewrite nth_error_map, Hi. unfold masked_log_prob. simpl.
  split; intros ->; reflexivity.
Qed.

(** C10.  Calling the potential on an unbatched vector [theta] succeeds and
    gives what the call on the [1 x dim] batch holding [theta] gives: the
    one value of that row. *)
Theorem potential_batches_unbatched_theta (self : PosteriorPotential X)
    (x : X) (theta : Theta) (track_gradients : bool) :
  x_o self = Some x ->
  __call__ neg_inf posterior_model_log_prob within_support self
    (Theta1D theta) track_gradients
  = __call__ neg_inf posterior_model_log_prob within_support self
      (Theta2D [theta]) track_gradients /\
  __call__ neg_inf posterior_model_log_prob within_support self
    (Theta1D theta) track_gradients
  = Ok [masked_log_prob neg_inf posterior_model_log_prob within_support x
          theta].
Proof.
  intros Hx. split; [reflexivity|].
  change (__call__ neg_inf posterior_model_log_prob within_support self
            (Theta1D theta) track_gradients)
    with (__call__ neg_inf posterior_model_log_prob within_support self
            (Theta2D [theta]) track_gradients).
  rewrite __call___batched with (x := x); [reflexivity|exact Hx|discriminate].
Qed.

End PotentialFacts.

(** * Concrete runs *)

Section ConcreteRuns.

#[local] Existing Instance Toy.collaborators.

Lemma sample_returns_requested_shape_witness :
  exists w : world (C := Toy.collaborators),
    Toy.fresh "slice_np_vectorized" 2 1 2 "prior" 0 = Ok w /\
    exists w' t,
      sample [2; 3] (Some 5) w = (w', Ok t) /\
      shape t = [2; 3] ++ [dim] /\
      length (rows t) = Torch.numel [2; 3].
Proof.
  eexists. split; [reflexivity|].
  apply sample_returns_requested_shape;
    [reflexivity|simpl; lia|simpl; lia|reflexivity|simpl; lia].
Defined.

(** C1 as stated fails on a shape with a zero dimension: the slice-sampler
    path indexes the last timestep of an empty buffer, the Pyro path asks
    [reshape] to infer a dimension of an empty tensor. *)
Lemma sample_zero_sized_shape_fails :
  exists w_np w_hmc : world (C := Toy.collaborators),
    Toy.fresh "slice_np" 10 10 1 "prior" 0 = Ok w_np /\
    Toy.fresh "hmc" 10 10 1 "prior" 0 = Ok w_hmc /\
    snd (sample [0] (Some 5) w_np) = Raise IndexError /\
    snd (sample [0] (Some 5) w_hmc) = Raise RuntimeError /\
    ~ (exists w' t,
         sample [0] (Some 5) w_np = (w', Ok t) /\ shape t = [0] ++ [dim]).
Proof.
  eexists. eexists. split; [reflexivity|]. split; [reflexivity|].
  split; [reflexivity|]. split; [reflexivity|].
  intros (w' & t & Heq & _). vm_compute in Heq. discriminate.
Qed.

Lemma dispatch_returns_num_samples_witness :
  exists w : world (C := Toy.collaborators),
    Toy.fresh "slice_np" 2 3 2 "prior" 0 = Ok w /\
    exists w' rows_,
      dispatch (C := Toy.collaborators) "slice_np" 5 [7; 8] 2 3 2 w
      = (w', Ok rows_) /\
      length rows_ = 5.
Proof.
  eexists. split; [reflexivity|].
  apply dispatch_returns_num_samples;
    [reflexivity|lia|lia|lia|reflexivity|left; lia].
Defined.

(** C2 as stated fails for [num_samples = 0] on the slice-sampler paths,
    with [thin = 1], [num_chains = 1] and [warmup_steps = 0]: the call
    raises instead of returning zero rows. *)
Lemma slice_np_zero_samples_fails :
  exists w : world (C := Toy.collaborators),
    Toy.fresh "slice_np" 1 0 1 "prior" 0 = Ok w /\
    snd (dispatch (C := Toy.collaborators) "slice_np" 0 [7] 1 0 1 w)
    = Raise IndexError /\
    snd (dispatch (C := Toy.collaborators) "slice_np_vectorized" 0 [7] 1 0 1
           w)
    = Raise IndexError /\
    ~ (exists w' rows_,
         dispatch (C := Toy.collaborators) "slice_np" 0 [7] 1 0 1 w
         = (w', Ok rows_) /\
         length rows_ = 0).
Proof.
  eexists. split; [reflexivity|]. split; [reflexivity|].
  split; [reflexivity|].
  intros (w' & rows_ & Heq & _). vm_compute in Heq. discriminate.
Qed.

Lemma pyro_mcmc_over_provisioning_witness :
  exists w : world (C := Toy.collaborators),
    Toy.fresh "nuts" 3 1 2 "prior" 0 = Ok w /\
    _pyro_mcmc (C := Toy.collaborators) 5 [7; 8] "nuts" 3 1 (Some 2) w
    = ({| self := self w; rng := 1 |},
       Ok [3000; 3003; 3006; 3009; 3012]).
Proof.
  eexists. split; [reflexivity|].
  match goal with |- _pyro_mcmc _ _ _ _ _ _ ?w = _ =>
    pose proof (@pyro_mcmc_over_provisioning Toy.collaborators 5 [7; 8]
                  "nuts" NUTS 3 1 2 w ltac:(lia) ltac:(lia) ltac:(lia)
                  eq_refl) as H
  end.
  cbv zeta in H. destruct H as (_ & _ & _ & H). exact H.
Defined.

Lemma slice_np_vectorized_schedule_witness :
  exists w : world (C := Toy.collaborators),
    Toy.fresh "slice_np_vectorized" 2 1 2 "prior" 0 = Ok w /\
    exists w',
      _slice_np_mcmc (C := Toy.collaborators) 3 [10; 20] 2 1 true w
      = (w', Ok [13; 15; 23]).
Proof.
  eexists. split; [reflexivity|].
  match goal with |- exists w', _slice_np_mcmc _ _ _ _ _ ?w = _ =>
    pose proof (@slice_np_vectorized_schedule Toy.collaborators 3 [10; 20]
                  2 1 w ltac:(lia) ltac:(lia) ltac:(simpl; lia)) as H
  end.
  cbv zeta in H. destruct H as (_ & _ & _ & _ & H). exact H.
Defined.

(** C7 as stated fails for [num_samples = 0]: the run is
    [warmup_steps * thin] steps long, nothing is left after the warmup is
    dropped, and the call raises while saving the last timestep instead of
    returning zero rows. *)
Lemma slice_np_vectorized_zero_samples_fails :
  exists w : world (C := Toy.collaborators),
    Toy.fresh "slice_np_vectorized" 2 1 2 "prior" 0 = Ok w /\
    Forall (fun chain => length chain = 1 * 2 + ceil_div (0 * 2) 2)
      (fst (SliceSamplerVectorized_run (x_o (self w)) [10; 20]
              (1 * 2 + ceil_div (0 * 2) 2) (rng w))) /\
    snd (_slice_np_mcmc (C := Toy.collaborators) 0 [10; 20] 2 1 true w)
    = Raise IndexError /\
    ~ (exists w' rows_,
         _slice_np_mcmc (C := Toy.collaborators) 0 [10; 20] 2 1 true w
         = (w', Ok rows_) /\
         length rows_ = 0).
Proof.
  eexists. split; [reflexivity|].
  split; [apply SliceSamplerVectorized_run_steps|].
  split; [reflexivity|].
  intros (w' & rows_ & Heq & _). vm_compute in Heq. discriminate.
Qed.

Lemma pyro_sample_retains_no_state_witness :
  exists w : world (C := Toy.collaborators),
    Toy.fresh "hmc" 2 1 2 "prior" 0 = Ok w /\
    _mcmc_init_params (self (fst (sample [3] (Some 5) w))) = None.
Proof.
  eexists. split; [reflexivity|].
  apply (@pyro_sample_retains_no_state Toy.collaborators [3] (Some 5)).
  reflexivity.
Defined.

Lemma unsupported_method_fails_witness :
  exists p : MCMCPosterior (C := Toy.collaborators),
    __init__ None "slice_np_fast" 10 10 1 "prior" 1000 = Ok p /\
    method p = "slice_np_fast" /\
    forall sample_shape x g,
      process_x x = true -> 1 <= 1 ->
      snd (sample sample_shape (Some x) {| self := p; rng := g |})
      = Raise NameError.
Proof.
  apply (@unsupported_method_fails Toy.collaborators None "slice_np_fast"
           10 10 1 "prior" 1000); reflexivity.
Defined.

(** C5 as stated fails on an identifier that does not contain
    ["slice_np"]: construction itself raises. *)
Lemma unknown_method_rejected_by_constructor :
  str_in "foo" supported_methods = false /\
  __init__ (C := Toy.collaborators) None "foo" 10 10 1 "prior" 1000
  = Raise NotImplementedError /\
  ~ (exists p,
       __init__ (C := Toy.collaborators) None "foo" 10 10 1 "prior" 1000
       = Ok p).
Proof.
  split; [reflexivity|]. split; [reflexivity|].
  intros [p Hp]. discriminate.
Qed.

(** The first [sample] call of an instance configured with
    [init_strategy="latest_sample"] returns, seeded from the prior. *)
Example latest_sample_first_call_returns :
  exists w : world (C := Toy.collaborators),
    Toy.fresh "slice_np" 1 0 1 "latest_sample" 0 = Ok w /\
    _mcmc_init_params (self w) = None /\
    snd (sample [2] (Some 5) w) = Ok {| shape := [2; 1]; rows := [1; 2] |}.
Proof. eexists. repeat split; reflexivity. Qed.

(** After [set_mcmc_method("hmc")] on an instance built with
    ["slice_np"], [sample] still runs the slice sampler. *)
Example set_mcmc_method_hmc_still_slice_np :
  exists w : world (C := Toy.collaborators),
    Toy.fresh "slice_np" 1 0 1 "prior" 0 = Ok w /\
    snd (sample [2] (Some 5) (fst (set_mcmc_method "hmc" w)))
    = snd (sample [2] (Some 5) w) /\
    snd (sample [2] (Some 5) (fst (set_mcmc_method "hmc" w)))
    = Ok {| shape := [2; 1]; rows := [1; 2] |}.
Proof. eexists. repeat split; reflexivity. Qed.

End ConcreteRuns.

Section ConcretePotential.

Import PosteriorPotential.


Lemma potential_masks_prior_support_witness :
  exists values,
    __call__ None Toy.toy_log_prob Toy.toy_within_support {| x_o := Some 1 |}
      (Theta2D [3; 12]) true = Ok values /\
    length values = 2 /\
    forall i theta,
      nth_error [3; 12] i = Some theta ->
      (Toy.toy_within_support theta = false ->
       nth_error values i = Some None) /\
      (Toy.toy_within_support theta = true ->
       nth_error values i = Some (Toy.toy_log_prob theta 1)).
Proof.
  apply (potential_masks_prior_support None Toy.toy_log_prob
           Toy.toy_within_support
           {| x_o := Some 1 |} (x := 1) (thetas := [3; 12]) true);
    [reflexivity|discriminate].
Defined.

Lemma potential_batches_unbatched_theta_witness :
  __call__ None Toy.toy_log_prob Toy.toy_within_support {| x_o := Some 1 |}
    (Theta1D 3) true
  = __call__ None Toy.toy_log_prob Toy.toy_within_support {| x_o := Some 1 |}
      (Theta2D [3]) true /\
  __call__ None Toy.toy_log_prob Toy.toy_within_support {| x_o := Some 1 |}
    (Theta1D 3) true
  = Ok [Some 4].
Proof.
  apply (potential_batches_unbatched_theta None Toy.toy_log_prob
           Toy.toy_within_support {| x_o := Some 1 |} (x := 1) 3 true).
  reflexivity.
Defined.

End ConcretePotential.

(** * Further properties *)

(** ** Thinning *)

Section Thinning.

Variable A : Type.

(** A stride keeps exactly the elements at the multiples of its step. *)
Lemma nth_error_stride_from (k skip : nat) (l : list A) (i : nat) :
  1 <= k ->
  nth_error (stride_from k skip l) i = nth_error l (skip + i * k).
Proof.
  intros Hk. revert skip i.
  induction l as [|a l IH]; intros skip i; simpl.
  - now destruct i, (skip + _).
  - destruct skip as [|j]; simpl.
    + destruct i as [|i]; simpl; [reflexivity|].
      rewrite IH. replace (k + i * k) with (S (k - 1 + i * k)) by lia.
      reflexivity.
    + apply IH.
Qed.

Lemma nth_error_stride (k : nat) (l : list A) (i : nat) :
  1 <= k -> nth_error (stride k l) i = nth_error l (i * k).
Proof. intros Hk. unfold stride. now rewrite nth_error_stride_from. Qed.

End Thinning.

Lemma ceil_div_below (a b : nat) : 1 <= b -> b * ceil_div a b < a + b.
Proof.
  intros Hb. unfold ceil_div.
  pose proof (Nat.div_mod_eq a b) as Hdm.
  assert (Hlt : a mod b < b) by (apply Nat.mod_upper_bound; lia).
  destruct (Nat.eqb_spec (a mod b) 0) as [H0|H0]; nia.
Qed.

Lemma ceil_div_unique (a b m : nat) :
  1 <= b -> a <= b * m -> b * m < a + b -> ceil_div a b = m.
Proof.
  intros Hb Hle Hlt.
  pose proof (ceil_div_covers a Hb) as Hq1.
  pose proof (ceil_div_below a Hb) as Hq2.
  nia.
Qed.

Lemma length_stride (A : Type) (k : nat) (l : list A) :
  1 <= k -> length (stride k l) = ceil_div (length l) k.
Proof.
  intros Hk. symmetry. apply ceil_div_unique; [exact Hk| |].
  - now apply stride_covers.
  - destruct (length (stride k l)) as [|m] eqn:Hm; [lia|].
    assert (Hin : nth_error (stride k l) m <> None)
      by (apply nth_error_Some; lia).
    rewrite nth_error_stride in Hin by exact Hk.
    apply nth_error_Some in Hin. nia.
Qed.

(** Taking the ceiling twice, by [c] and then by [t], undoes the scaling by
    [t]. *)
Lemma ceil_div_nested (n t c : nat) :
  1 <= t -> 1 <= c -> ceil_div (ceil_div (n * t) c) t = ceil_div n c.
Proof.
  intros Ht Hc.
  pose proof (ceil_div_covers n Hc) as Hq1.
  pose proof (ceil_div_below n Hc) as Hq2.
  pose proof (ceil_div_covers (n * t) Hc) as HL1.
  pose proof (ceil_div_below (n * t) Hc) as HL2.
  set (q := ceil_div n c) in *. set (L := ceil_div (n * t) c) in *.
  apply ceil_div_unique; [exact Ht| |].
  - assert (c * L < c * (t * q) + c) by nia. nia.
  - assert (c * (t * q) < c * (L + t)) by nia. nia.
Qed.

Section ThinnedBuffers.

Context {C : Collaborators}.

(** The shape of the buffer either branch of [_slice_np_mcmc] fills. *)
Lemma slice_np_buffer_rows (num_samples : nat)
    (initial_params : list Theta) (thin_ warmup_steps_ : nat)
    (vectorized : bool) (w : world) :
  1 <= thin_ -> 1 <= length initial_params ->
  returning
    (fun w' samples =>
       self w' = self w /\
       length samples = length initial_params /\
       Forall (fun chain =>
                 length chain
                 = ceil_div num_samples (length initial_params)) samples /\
       num_samples <= length (concat samples) /\
       length (concat samples) < num_samples + length initial_params)
    (slice_np_buffer num_samples initial_params thin_ warmup_steps_
       vectorized w).
Proof.
  intros Ht Hc. unfold slice_np_buffer.
  set (c := length initial_params) in *.
  pose proof (ceil_div_covers num_samples Hc) as Hq1.
  pose proof (ceil_div_below num_samples Hc) as Hq2.
  assert (Hfinish : forall (w' : world) (samples : list (list Theta)),
            self w' = self w -> length samples = c ->
            Forall (fun chain => length chain = ceil_div num_samples c)
                   samples ->
            self w' = self w /\ length samples = c /\
            Forall (fun chain => length chain = ceil_div num_samples c)
                   samples /\
            num_samples <= length (concat samples) /\
            length (concat samples) < num_samples + c).
  { intros w' samples Hself Hlen Hall.
    pose proof (concat_rectangular Hall) as Htot. rewrite Hlen in Htot.
    repeat split; try assumption; rewrite Htot; nia. }
  destruct vectorized; simpl negb; cbv iota.
  - eapply returning_weaken;
      [apply sample_chains_vectorized_buffer; assumption|].
    intros w1 samples [Hself ->]. apply Hfinish; [exact Hself| |].
    + rewrite length_map. apply SliceSamplerVectorized_run_chains.
    + apply Forall_map.
      eapply Forall_impl; [|apply SliceSamplerVectorized_run_steps].
      intros chain Hlen. simpl in Hlen.
      rewrite length_stride, length_skipn, Hlen by exact Ht.
      replace (warmup_steps_ * thin_
               + ceil_div (num_samples * thin_) c - warmup_steps_ * thin_)
        with (ceil_div (num_samples * thin_) c) by lia.
      now apply ceil_div_nested.
  - eapply returning_bind; [apply sample_chains_sequentially_buffer|].
    intros w1 samples (Hself & Hlen & Hall). fold c in Hlen, Hall.
    destruct samples as [|chain samples]; [simpl in Hlen; lia|].
    unfold np_stack, ret, returning. now apply Hfinish.
Qed.

(** X9.  Both branches of [_slice_np_mcmc] fill the buffer with exactly
    [ceil(num_samples / num_chains)] rows per chain, one chain per row of
    [initial_params]; the buffer holds at least [num_samples] rows and
    fewer than [num_samples + num_chains]. *)
Theorem slice_np_buffer_rows_per_chain (num_samples : nat)
    (initial_params : list Theta) (thin_ warmup_steps_ : nat)
    (vectorized : bool) (w : world) :
  1 <= thin_ -> 1 <= length initial_params ->
  returning
    (fun w' samples =>
       self w' = self w /\
       length samples = length initial_params /\
       Forall (fun chain =>
                 length chain
                 = ceil_div num_samples (length initial_params)) samples /\
       num_samples <= length (concat samples) /\
       length (concat samples) < num_samples + length initial_params)
    (slice_np_buffer num_samples initial_params thin_ warmup_steps_
       vectorized w).
Proof. intros Ht Hc. now apply slice_np_buffer_rows. Qed.

(** X10.  Thinning in the vectorized branch.  The [j]-th row kept of a chain
    is the state of that chain at step [warmup_steps * thin + j * thin] of
    the run: warmup steps are never kept, and between two kept rows lie
    exactly [thin] steps. *)
Theorem slice_np_vectorized_keeps_every_thin_th (num_samples : nat)
    (initial_params : list Theta) (thin_ warmup_steps_ : nat) (w : world) :
  1 <= thin_ -> 1 <= length initial_params ->
  let trajectory :=
    fst (SliceSamplerVectorized_run (x_o (self w)) initial_params
           (warmup_steps_ * thin_
            + ceil_div (num_samples * thin_) (length initial_params))
           (rng w)) in
  returning
    (fun _ samples =>
       Forall2
         (fun chain kept =>
            forall j,
              nth_error kept j
              = nth_error chain (warmup_steps_ * thin_ + j * thin_))
         trajectory samples)
    (sample_chains_vectorized initial_params num_samples
       (length initial_params) thin_ warmup_steps_ w).
Proof.
  intros Ht Hc trajectory.
  eapply returning_weaken;
    [apply sample_chains_vectorized_buffer; assumption|].
  intros w1 samples [_ ->]. fold trajectory.
  induction trajectory as [|chain chains IH]; simpl; constructor.
  - intros j. now rewrite nth_error_stride, nth_error_skipn.
  - exact IH.
Qed.

(** X11.  Thinning in the Pyro adapter.  Row [j] of the result, for every
    [j < num_samples], is draw [j * thin] of the flattened chains. *)
Theorem pyro_mcmc_keeps_every_thin_th (num_samples : nat)
    (initial_params : list Theta) (mcmc_method_ : string) (k : kernel)
    (thin_ warmup_steps_ num_chains_ : nat) (w : world) :
  kernels mcmc_method_ = Some k -> 1 <= thin_ -> 1 <= num_chains_ ->
  let flat :=
    fst (MCMC_run k (x_o (self w))
           ((thin_ * num_samples) / num_chains_ + num_chains_)
           warmup_steps_ initial_params num_chains_ (rng w)) in
  exists w' rows_,
    _pyro_mcmc num_samples initial_params mcmc_method_ thin_ warmup_steps_
      (Some num_chains_) w = (w', Ok rows_) /\
    forall j, j < num_samples ->
      nth_error rows_ j = nth_error flat (j * thin_) /\
      nth_error rows_ j <> None.
Proof.
  intros Hk Ht Hc flat.
  destruct (_pyro_mcmc_rows num_samples initial_params _ warmup_steps_ w
              Hk Ht Hc) as [Henough Heq].
  eexists. eexists. split; [exact Heq|].
  intros j Hj. fold flat in Henough |- *.
  rewrite nth_error_firstn.
  destruct (Nat.ltb_spec j num_samples) as [_|Hge]; [|lia].
  split; [now apply nth_error_stride|].
  apply nth_error_Some. lia.
Qed.

End ThinnedBuffers.

(** ** Construction and configuration *)

Lemma prefix_append (s1 s2 : string) :
  String.prefix s1 s2 = true <-> exists rest, s2 = (s1 ++ rest)%string.
Proof.
  revert s2. induction s1 as [|a s1 IH]; intros s2.
  - split; [intros _; now exists s2|intros _; now destruct s2].
  - destruct s2 as [|b s2]; simpl.
    + split; [discriminate|intros [rest Hrest]; discriminate].
    + destruct (Ascii.ascii_dec a b) as [->|Hne].
      * rewrite IH. split; intros [rest Hrest]; exists rest; congruence.
      * split; [discriminate|]. intros [rest [= Hab _]]. congruence.
Qed.

Lemma str_contains_unfold (needle haystack : string) :
  str_contains needle haystack
  = if String.prefix needle haystack then true
    else match haystack with
         | EmptyString => false
         | String _ rest => str_contains needle rest
         end.
Proof. now destruct haystack. Qed.

(** [str_contains] is the substring test of Python's [in]. *)
Lemma str_contains_spec (needle haystack : string) :
  str_contains needle haystack = true
  <-> exists before after,
        haystack = (before ++ needle ++ after)%string.
Proof.
  split.
  - induction haystack as [|c h IH]; rewrite str_contains_unfold.
    + destruct (String.prefix needle "") eqn:Hp;
        [|intros Hf; discriminate Hf].
      intros _. apply prefix_append in Hp. destruct Hp as [rest Hrest].
      now exists ""%string, rest.
    + destruct (String.prefix needle (String c h)) eqn:Hp.
      * intros _. apply prefix_append in Hp. destruct Hp as [rest Hrest].
        now exists ""%string, rest.
      * intros Hc. destruct (IH Hc) as (before & after & ->).
        now exists (String c before), after.
  - intros (before & after & ->).
    induction before as [|c before IH].
    + rewrite str_contains_unfold.
      assert (Hp : String.prefix needle (needle ++ after) = true)
        by (apply prefix_append; now exists after).
      simpl. now rewrite Hp.
    + change ((String c before ++ needle ++ after)%string)
        with (String c (before ++ needle ++ after)%string).
      rewrite str_contains_unfold, IH.
      now destruct (String.prefix needle _).
Qed.

Section Construction.

Context {C : Collaborators}.

(** X1.  The constructor accepts exactly the identifiers ["slice"], ["hmc"],
    ["nuts"] and those with ["slice_np"] as a substring.  An instance it
    returns stores the arguments as given, and wraps the potential for
    Pyro exactly when [sample] will dispatch to Pyro, with gradients
    exactly for ["hmc"] and ["nuts"]. *)
Theorem constructor_accepts_and_wraps (potential_x_o : option X)
    (method_ : string) (thin_ warmup_steps_ num_chains_ : nat)
    (init_strategy_ : string) (init_strategy_num_candidates_ : nat) :
  ((exists p,
      __init__ potential_x_o method_ thin_ warmup_steps_ num_chains_
        init_strategy_ init_strategy_num_candidates_ = Ok p)
   <-> (method_ = "slice" \/ method_ = "hmc" \/ method_ = "nuts" \/
        exists before after,
          method_ = (before ++ "slice_np" ++ after)%string)) /\
  (forall p,
     __init__ potential_x_o method_ thin_ warmup_steps_ num_chains_
       init_strategy_ init_strategy_num_candidates_ = Ok p ->
     method p = method_ /\ thin p = thin_ /\
     warmup_steps p = warmup_steps_ /\ num_chains p = num_chains_ /\
     init_strategy p = init_strategy_ /\
     init_strategy_num_candidates p = init_strategy_num_candidates_ /\
     x_o p = potential_x_o /\
     potential_pyro p = str_in method_ ["hmc"; "nuts"; "slice"] /\
     potential_track_gradients p = str_in method_ ["hmc"; "nuts"]).
Proof.
  unfold __init__.
  destruct (String.eqb_spec method_ "slice") as [->|Hslice].
  { split.
    - split; [intros _; now left|intros _; eexists; reflexivity].
    - intros p [= <-]. repeat split. }
  destruct (str_in method_ ["hmc"; "nuts"]) eqn:Hhn.
  { pose proof Hhn as Hin. apply str_in_In in Hin. simpl in Hin.
    assert (Hpyro : str_in method_ ["hmc"; "nuts"; "slice"] = true)
      by (destruct Hin as [<-|[<-|[]]]; reflexivity).
    split.
    - split; [intros _|intros _; eexists; reflexivity].
      destruct Hin as [<-|[<-|[]]]; auto.
    - intros p [= <-]. repeat (split; [reflexivity|]).
      split; [symmetry; exact Hpyro|reflexivity]. }
  assert (Hpyro : str_in method_ ["hmc"; "nuts"; "slice"] = false).
  { apply not_true_iff_false. intros Hin. apply str_in_In in Hin.
    simpl in Hin. destruct Hin as [<-|[<-|[<-|[]]]];
      try discriminate Hhn. now apply Hslice. }
  destruct (str_contains "slice_np" method_) eqn:Hnp.
  - split.
    + split; [intros _|intros _; eexists; reflexivity].
      right. right. right. now apply str_contains_spec.
    + intros p [= <-]. repeat (split; [reflexivity|]).
      split; [symmetry; exact Hpyro|reflexivity].
  - split; [|discriminate].
    split; [intros [p Hp]; discriminate|].
    intros [->|[->|[->|Hsub]]]; try discriminate; try now apply Hslice.
    apply str_contains_spec in Hsub. congruence.
Qed.

(** [set_mcmc_method] and the [mcmc_method] property are a round trip:
    after either setter with [m] the getter returns [m], a later setter
    overrides an earlier one, and no other attribute changes. *)
Theorem mcmc_method_round_trip (m0 m : string) (w : world) :
  (set_mcmc_method m ;;; mcmc_method) w
  = (on_self (set__mcmc_method (Some m)) w, Ok m) /\
  (mcmc_method_setter m ;;; mcmc_method) w
  = (on_self (set__mcmc_method (Some m)) w, Ok m) /\
  (set_mcmc_method m0 ;;; set_mcmc_method m ;;; mcmc_method) w
  = (on_self (set__mcmc_method (Some m)) w, Ok m) /\
  unread (set__mcmc_method (Some m)) /\
  init_strategy (set__mcmc_method (Some m) (self w))
  = init_strategy (self w) /\
  _mcmc_init_params (set__mcmc_method (Some m) (self w))
  = _mcmc_init_params (self w).
Proof.
  repeat split.
Qed.

End Construction.

(** ** What [sample] leaves behind *)

Section SampleState.

Context {C : Collaborators}.

Section Keeps.

Variables (B : Type) (field : MCMCPosterior -> B).

Lemma sample_chains_sequentially_keeps (chains : list Theta)
    (num_samples num_chains_ thin_ warmup_steps_ : nat) :
  keeps field (sample_chains_sequentially chains num_samples num_chains_
                 thin_ warmup_steps_).
Proof. induction chains as [|init chains IH]; simpl; frame. Qed.

Lemma sample_chains_vectorized_keeps (initial_params : list Theta)
    (num_samples num_chains_ thin_ warmup_steps_ : nat) :
  keeps field (sample_chains_vectorized initial_params num_samples
                 num_chains_ thin_ warmup_steps_).
Proof. unfold sample_chains_vectorized. frame. Qed.

Hypothesis field_not_init_params : forall v p,
  field (set__mcmc_init_params v p) = field p.

Lemma _slice_np_mcmc_keeps (num_samples : nat)
    (initial_params : list Theta) (thin_ warmup_steps_ : nat)
    (vectorized : bool) :
  keeps field (_slice_np_mcmc num_samples initial_params thin_
                 warmup_steps_ vectorized).
Proof.
  unfold _slice_np_mcmc, np_stack. frame.
  - apply sample_chains_sequentially_keeps.
  - apply sample_chains_vectorized_keeps.
  - apply keeps_update. intros p. apply field_not_init_params.
Qed.

Lemma dispatch_keeps (method_ : string) (num_samples : nat)
    (initial_params : list Theta) (thin_ warmup_steps_ num_chains_ : nat) :
  keeps field (dispatch method_ num_samples initial_params thin_
                 warmup_steps_ num_chains_).
Proof.
  unfold dispatch.
  destruct (str_in method_ ["slice_np"; "slice_np_vectorized"]).
  - apply _slice_np_mcmc_keeps.
  - destruct (str_in method_ ["hmc"; "nuts"; "slice"]).
    + apply _pyro_mcmc_keeps.
    + apply keeps_raise.
Qed.

(** Everything [sample] does once the observation is bound. *)
Lemma sample_after_binding_keeps (sample_shape : list nat)
    (num_chains_ : nat) (i : init_fn) :
  keeps field
    (inits <- init_fn_for_range num_chains_ i ;;
     initial_params <- torch_cat inits ;;
     method_ <- get method ;;
     thin_ <- get thin ;;
     warmup_steps_ <- get warmup_steps ;;
     transformed_samples <-
       dispatch method_ (Torch.numel sample_shape) initial_params thin_
         warmup_steps_ num_chains_ ;;
     reshape_samples sample_shape
       (map theta_transform_inv transformed_samples)).
Proof.
  apply keeps_bind; [apply init_fn_for_range_keeps|intros inits].
  apply keeps_bind; [apply torch_cat_keeps|intros initial_params].
  apply keeps_bind; [apply keeps_get|intros m].
  apply keeps_bind; [apply keeps_get|intros t].
  apply keeps_bind; [apply keeps_get|intros ws].
  apply keeps_bind; [apply dispatch_keeps|intros rows_].
  apply reshape_samples_keeps.
Qed.

Hypothesis field_not_x_o : forall v p, field (set_x_o v p) = field p.

Lemma sample_keeps (sample_shape : list nat) (x : option X) :
  keeps field (sample sample_shape x).
Proof.
  unfold sample.
  apply keeps_bind; [apply _x_else_default_x_keeps|intros x'].
  apply keeps_bind;
    [apply keeps_update; intros p; apply field_not_x_o|intros _].
  apply keeps_bind; [apply keeps_ret|intros i].
  apply keeps_bind; [apply keeps_get|intros c].
  apply sample_after_binding_keeps.
Qed.

End Keeps.

(** X2.  [sample] never changes the run configuration.  Whatever the
    arguments and whether it returns or raises, method, thinning, warmup,
    chain count, initialisation strategy and its candidate count, the
    default observation, [_mcmc_method] and the potential's wrapper flags
    are afterwards what they were. *)
Theorem sample_keeps_configuration (sample_shape : list nat)
    (x : option X) (w : world) :
  let p := self w in
  let p' := self (fst (sample sample_shape x w)) in
  method p' = method p /\ thin p' = thin p /\
  warmup_steps p' = warmup_steps p /\ num_chains p' = num_chains p /\
  init_strategy p' = init_strategy p /\
  init_strategy_num_candidates p' = init_strategy_num_candidates p /\
  default_x p' = default_x p /\ _mcmc_method p' = _mcmc_method p /\
  potential_pyro p' = potential_pyro p /\
  potential_track_gradients p' = potential_track_gradients p.
Proof.
  simpl. repeat split; apply sample_keeps; reflexivity.
Qed.

(** X3.  [sample] checks the conditioning data before anything else and
    binds it for good.  Data failing the shape check end the call with the
    error of [process_x], instance and generator untouched; data passing
    it are bound on the potential when the call ends, whether it returned
    or raised. *)
Theorem sample_binds_conditioning_data (sample_shape : list nat) (x : X)
    (w : world) :
  (process_x x = false ->
   sample sample_shape (Some x) w = (w, Raise process_x_error)) /\
  (process_x x = true ->
   x_o (self (fst (sample sample_shape (Some x) w))) = Some x).
Proof.
  split; intros Hx.
  - unfold sample, _x_else_default_x. now rewrite Hx.
  - rewrite sample_unfold by exact Hx.
    rewrite (sample_after_binding_keeps x_o); reflexivity.
Qed.

(** X4.  With [num_chains = 0] no initial parameter is built and [torch.cat]
    refuses the empty list: [sample] raises a runtime error before
    dispatch, for every method identifier, with the observation bound and
    the generator untouched. *)
Theorem sample_without_chains_fails (sample_shape : list nat) (x : X)
    (w : world) :
  num_chains (self w) = 0 -> process_x x = true ->
  sample sample_shape (Some x) w
  = (on_self (set_x_o (Some x)) w, Raise RuntimeError).
Proof.
  intros Hc Hx. rewrite sample_unfold by exact Hx. now rewrite Hc.
Qed.

End SampleState.

(** ** Exceptions of the internal sampling call *)

Section InternalErrors.

Context {C : Collaborators}.

Lemma no_assertion_bind A A' (m : M A) (k : A -> M A') :
  (forall w, snd (m w) <> Raise AssertionError) ->
  (forall a w, snd (k a w) <> Raise AssertionError) ->
  forall w, snd (bind m k w) <> Raise AssertionError.
Proof.
  intros Hm Hk w. unfold bind. specialize (Hm w).
  destruct (m w) as [w' [a|e]]; simpl in *; [apply Hk|].
  intros [= ->]. now apply Hm.
Qed.

(** A buffer that is returned holds at least [num_samples] rows, and the
    branches raise no assertion error of their own. *)
Lemma slice_np_buffer_outcome (num_samples : nat)
    (initial_params : list Theta) (thin_ warmup_steps_ : nat)
    (vectorized : bool) (w : world) :
  match slice_np_buffer num_samples initial_params thin_ warmup_steps_
          vectorized w with
  | (_, Ok samples) => num_samples <= length (concat samples)
  | (_, Raise e) => e <> AssertionError
  end.
Proof.
  destruct initial_params as [|init inits] eqn:Hinit.
  { destruct vectorized; simpl; discriminate. }
  rewrite <- Hinit.
  assert (Hc : 1 <= length initial_params) by (subst; simpl; lia).
  clear Hinit. destruct vectorized.
  - destruct thin_ as [|t].
    + unfold slice_np_buffer, sample_chains_vectorized.
      destruct (length initial_params) as [|c]; [lia|].
      unfold bind, get, draw. simpl.
      destruct (SliceSamplerVectorized_run _ _ _ _); simpl. discriminate.
    + pose proof (@slice_np_buffer_rows _ num_samples
                    initial_params (S t) warmup_steps_ true w
                    ltac:(lia) Hc) as Hbuf.
      destruct (slice_np_buffer _ _ _ _ _ w) as [w1 [samples|e]];
        simpl in Hbuf; [|contradiction].
      tauto.
  - unfold slice_np_buffer. cbn [negb]. unfold bind.
    pose proof (sample_chains_sequentially_buffer initial_params
                  num_samples (length initial_params) thin_ warmup_steps_
                  w) as Hbuf.
    destruct (sample_chains_sequentially _ _ _ _ _ w)
      as [w1 [samples|e]]; simpl in Hbuf; [|contradiction].
    destruct Hbuf as (_ & Hlen & Hall).
    pose proof (concat_rectangular Hall) as Htot. rewrite Hlen in Htot.
    pose proof (ceil_div_covers num_samples Hc) as Hq.
    destruct samples as [|chain samples]; [simpl in Hlen; lia|].
    unfold np_stack, ret. cbv beta iota. rewrite Htot. exact Hq.
Qed.

Lemma _slice_np_mcmc_no_assertion (num_samples : nat)
    (initial_params : list Theta) (thin_ warmup_steps_ : nat)
    (vectorized : bool) (w : world) :
  snd (_slice_np_mcmc num_samples initial_params thin_ warmup_steps_
         vectorized w) <> Raise AssertionError.
Proof.
  pose proof (slice_np_buffer_outcome num_samples initial_params thin_
                warmup_steps_ vectorized w) as Hbuf.
  unfold _slice_np_mcmc.
  fold (slice_np_buffer num_samples initial_params thin_ warmup_steps_
          vectorized).
  unfold bind at 1.
  destruct (slice_np_buffer _ _ _ _ _ w) as [w1 [samples|e]]; simpl.
  - destruct (last_timestep samples) as [latest|]; [|discriminate].
    unfold bind, ret, update, assert. simpl.
    rewrite length_firstn, Nat.min_l, Nat.eqb_refl by exact Hbuf.
    discriminate.
  - congruence.
Qed.

Lemma _pyro_mcmc_no_assertion (num_samples : nat)
    (initial_params : list Theta) (mcmc_method_ : string)
    (thin_ warmup_steps_ : nat) (num_chains_ : option nat) (w : world) :
  snd (_pyro_mcmc num_samples initial_params mcmc_method_ thin_
         warmup_steps_ num_chains_ w) <> Raise AssertionError.
Proof.
  destruct num_chains_ as [c|]; [|discriminate].
  destruct (kernels mcmc_method_) as [k|] eqn:Hk;
    [|unfold _pyro_mcmc, bind; simpl; rewrite Hk; discriminate].
  destruct c as [|c];
    [unfold _pyro_mcmc, bind; simpl; rewrite Hk; discriminate|].
  destruct thin_ as [|t].
  - unfold _pyro_mcmc, bind, draw, get, ret. simpl. rewrite Hk.
    destruct (MCMC_run _ _ _ _ _ _ _). discriminate.
  - destruct (@_pyro_mcmc_rows _ num_samples initial_params mcmc_method_
                k (S t) warmup_steps_ (S c) w Hk ltac:(lia) ltac:(lia))
      as [_ Heq].
    rewrite Heq. discriminate.
Qed.

(** X5.  The sample-count assertions of [_slice_np_mcmc] and [_pyro_mcmc]
    cannot fire on non-negative arguments.  For every method identifier,
    every tensor of initial parameters and all natural numbers
    [num_samples], [thin], [warmup_steps] and [num_chains], zero included,
    the internal sampling call of [sample] does not end in an assertion
    error, and neither does a direct call of either adapter: whenever the
    truncation is reached, the buffer holds enough rows. *)
Theorem internal_call_raises_no_assertion_error (method_ : string)
    (num_samples : nat) (initial_params : list Theta)
    (thin_ warmup_steps_ num_chains_ : nat) (w : world) :
  snd (dispatch method_ num_samples initial_params thin_ warmup_steps_
         num_chains_ w) <> Raise AssertionError /\
  (forall vectorized,
     snd (_slice_np_mcmc num_samples initial_params thin_ warmup_steps_
            vectorized w) <> Raise AssertionError) /\
  (forall mcmc_method_ chains,
     snd (_pyro_mcmc num_samples initial_params mcmc_method_ thin_
            warmup_steps_ chains w) <> Raise AssertionError).
Proof.
  split; [|split].
  - unfold dispatch.
    destruct (str_in method_ ["slice_np"; "slice_np_vectorized"]).
    + apply _slice_np_mcmc_no_assertion.
    + destruct (str_in method_ ["hmc"; "nuts"; "slice"]).
      * apply _pyro_mcmc_no_assertion.
      * discriminate.
  - intros vectorized. apply _slice_np_mcmc_no_assertion.
  - intros mcmc_method_ chains. apply _pyro_mcmc_no_assertion.
Qed.

End InternalErrors.

(** ** Degenerate thinning, and the Pyro adapter's failures *)

Section DegenerateRuns.

Context {C : Collaborators}.

(** X7.  A thinning factor of zero is a value error, raised by the slicing
    [::thin] only after the sampler has been run: the vectorized slice
    sampler for zero steps, the Pyro adapter for [num_chains] draws per
    chain after its warmup.  The generator is left where that run ended,
    and no attribute is assigned. *)
Theorem thin_zero_is_a_value_error (num_samples : nat)
    (initial_params : list Theta) (mcmc_method_ : string) (k : kernel)
    (warmup_steps_ num_chains_ : nat) (w : world) :
  1 <= length initial_params -> 1 <= num_chains_ ->
  kernels mcmc_method_ = Some k ->
  _slice_np_mcmc num_samples initial_params 0 warmup_steps_ true w
  = ({| self := self w;
        rng := snd (SliceSamplerVectorized_run (x_o (self w))
                      initial_params 0 (rng w)) |},
     Raise ValueError) /\
  _pyro_mcmc num_samples initial_params mcmc_method_ 0 warmup_steps_
    (Some num_chains_) w
  = ({| self := self w;
        rng := snd (MCMC_run k (x_o (self w)) num_chains_ warmup_steps_
                      initial_params num_chains_ (rng w)) |},
     Raise ValueError).
Proof.
  intros Hc Hn Hk. split.
  - unfold _slice_np_mcmc, sample_chains_vectorized. cbn [negb].
    rewrite !Nat.mul_0_r.
    destruct (length initial_params) as [|c] eqn:Hlen; [lia|].
    assert (Hsteps : 0 + ceil_div 0 (S c) = 0).
    { unfold ceil_div. rewrite Nat.Div0.mod_0_l, Nat.Div0.div_0_l.
      reflexivity. }
    rewrite Hsteps. unfold bind, get, draw. simpl.
    destruct (SliceSamplerVectorized_run _ _ _ _); reflexivity.
  - destruct num_chains_ as [|c]; [lia|].
    unfold _pyro_mcmc, bind, get, draw, ret. rewrite Hk.
    cbv beta iota. rewrite Nat.mul_0_l, Nat.Div0.div_0_l.
    simpl.
    destruct (MCMC_run _ _ _ _ _ _ _); reflexivity.
Qed.

(** X8.  The Pyro adapter assigns no attribute, whatever its outcome, and
    its configuration errors come before any chain is run: a missing chain
    count is a type error, an unknown kernel name a key error, zero chains
    a division error, each leaving world and generator untouched. *)
Theorem pyro_mcmc_configuration_errors (num_samples : nat)
    (initial_params : list Theta) (mcmc_method_ : string)
    (thin_ warmup_steps_ : nat) (num_chains_ : option nat) (w : world) :
  self (fst (_pyro_mcmc num_samples initial_params mcmc_method_ thin_
               warmup_steps_ num_chains_ w)) = self w /\
  (num_chains_ = None ->
   _pyro_mcmc num_samples initial_params mcmc_method_ thin_ warmup_steps_
     num_chains_ w = (w, Raise TypeError)) /\
  (num_chains_ <> None -> kernels mcmc_method_ = None ->
   _pyro_mcmc num_samples initial_params mcmc_method_ thin_ warmup_steps_
     num_chains_ w = (w, Raise KeyError)) /\
  (num_chains_ = Some 0 -> kernels mcmc_method_ <> None ->
   _pyro_mcmc num_samples initial_params mcmc_method_ thin_ warmup_steps_
     num_chains_ w = (w, Raise ZeroDivisionError)).
Proof.
  split; [apply (_pyro_mcmc_keeps (fun p => p))|].
  split; [intros ->; reflexivity|].
  split.
  - intros Hsome Hk. destruct num_chains_ as [c|]; [|congruence].
    unfold _pyro_mcmc, bind. simpl. now rewrite Hk.
  - intros -> Hk. destruct (kernels mcmc_method_) as [k|] eqn:Hk';
      [|congruence].
    unfold _pyro_mcmc, bind. simpl. now rewrite Hk'.
Qed.

End DegenerateRuns.

(** ** The state retained for ["latest_sample"] *)

Section RetainedState.

Context {C : Collaborators}.

Lemma last_timestep_Some (samples : list (list Theta))
    (latest : list Theta) :
  last_timestep samples = Some latest ->
  Forall2 (fun chain theta => last_opt chain = Some theta) samples latest.
Proof.
  revert latest. induction samples as [|chain samples IH]; simpl.
  - intros latest [= <-]. constructor.
  - intros latest.
    destruct (last_opt chain) as [theta|] eqn:Hchain; [|discriminate].
    destruct (last_timestep samples) as [thetas|]; [|discriminate].
    intros [= <-]. constructor; [exact Hchain|now apply IH].
Qed.

(** X12.  For [num_samples >= 1], [thin >= 1] and at least one chain, a
    slice-sampler call fills its buffer, one chain per row of
    [initial_params], retains the last row of every chain of that buffer,
    in chain order, and returns the first [num_samples] rows of the
    buffer, chain after chain; it assigns no other attribute.  Afterwards
    the builder accepts ["latest_sample"] and hands out the retained
    states. *)
Theorem slice_np_mcmc_retains_last_rows (num_samples : nat)
    (initial_params : list Theta) (thin_ warmup_steps_ : nat)
    (vectorized : bool) (w : world) :
  1 <= num_samples -> 1 <= length initial_params -> 1 <= thin_ ->
  exists w1 samples latest,
    slice_np_buffer num_samples initial_params thin_ warmup_steps_
      vectorized w = (w1, Ok samples) /\
    self w1 = self w /\
    length samples = length initial_params /\
    Forall2 (fun chain theta => last_opt chain = Some theta)
            samples latest /\
    _slice_np_mcmc num_samples initial_params thin_ warmup_steps_
      vectorized w
    = (on_self (set__mcmc_init_params (Some latest)) w1,
       Ok (firstn num_samples (concat samples))) /\
    _build_mcmc_init_fn "latest_sample"
      (on_self (set__mcmc_init_params (Some latest)) w1)
    = (on_self (set__mcmc_init_params (Some latest)) w1,
       Ok (IterateParameters latest 0)).
Proof.
  intros Hn Hc Ht.
  pose proof (@slice_np_buffer_rows _ num_samples initial_params thin_
                warmup_steps_ vectorized w Ht Hc) as Hbuf.
  destruct (slice_np_buffer num_samples initial_params thin_ warmup_steps_
              vectorized w) as [w1 [samples|e]] eqn:Hrun;
    simpl in Hbuf; [|contradiction].
  destruct Hbuf as (Hself & Hlen & Hall & Hge & _).
  assert (Hne : Forall (fun chain => 1 <= length chain) samples).
  { eapply Forall_impl; [|exact Hall]. intros chain Hchain.
    simpl in Hchain. pose proof (ceil_div_covers num_samples Hc). nia. }
  destruct (last_timestep_nonempty Hne) as (latest & Hlast & _ & Hrows).
  exists w1, samples, latest.
  split; [reflexivity|]. split; [exact Hself|]. split; [exact Hlen|].
  split; [exact Hrows|]. split; [|reflexivity].
  unfold _slice_np_mcmc.
  fold (slice_np_buffer num_samples initial_params thin_ warmup_steps_
          vectorized).
  unfold bind at 1. rewrite Hrun. cbv beta iota. rewrite Hlast.
  unfold bind, ret, update, assert, on_self. simpl.
  now rewrite length_firstn, Nat.min_l, Nat.eqb_refl by exact Hge.
Qed.

Lemma skipn_nth_error_cons (A : Type) (l : list A) (n : nat) (a : A) :
  nth_error l n = Some a -> skipn n l = a :: skipn (S n) l.
Proof.
  revert n. induction l as [|b l IH]; intros [|n]; simpl;
    try discriminate.
  - now intros [= ->].
  - intros Hn. now rewrite (IH n Hn).
Qed.

Lemma init_fn_for_range_iterate (parameters : list Theta)
    (n position : nat) (w : world) :
  position + n <= length parameters ->
  init_fn_for_range n (IterateParameters parameters position) w
  = (w, Ok (firstn n (skipn position parameters))).
Proof.
  revert position. induction n as [|n IH]; intros position Hle; simpl.
  - reflexivity.
  - unfold bind at 1. unfold call_init_fn.
    rewrite Nat.mod_small by lia.
    destruct (nth_error parameters position) as [theta|] eqn:Hnth.
    + simpl. unfold bind at 1. rewrite IH by lia. simpl.
      now rewrite (skipn_nth_error_cons _ _ Hnth).
    + apply nth_error_None in Hnth. lia.
Qed.

(** X13.  With states retained, an initialisation function built for
    ["latest_sample"] and called once per retained chain returns the
    retained states in their order, drawing nothing from the generator. *)
Theorem latest_sample_replays_retained_states (latest : list Theta)
    (w : world) :
  _mcmc_init_params (self w) = Some latest ->
  (f <- _build_mcmc_init_fn "latest_sample" ;;
   init_fn_for_range (length latest) f) w
  = (w, Ok latest).
Proof.
  intros Hsaved. unfold bind at 1.
  unfold _build_mcmc_init_fn. simpl. rewrite bind_get, Hsaved. simpl.
  rewrite init_fn_for_range_iterate by (simpl; lia).
  simpl. now rewrite firstn_all.
Qed.

End RetainedState.

(** ** The MAP estimate *)

Section MapEstimate.

Context {C : Collaborators} {MC : MapCollaborators}.

Lemma sample_after_binding_returns (sample_shape : list nat)
    (num_chains_ : nat) (w : world) :
  str_in (method (self w)) supported_methods = true ->
  1 <= thin (self w) -> 1 <= num_chains_ ->
  1 <= Torch.numel sample_shape ->
  returning
    (fun _ t =>
       shape t = sample_shape ++ [dim] /\
       length (rows t) = Torch.numel sample_shape)
    ((inits <- init_fn_for_range num_chains_ PriorInit ;;
      initial_params <- torch_cat inits ;;
      method_ <- get method ;;
      thin_ <- get thin ;;
      warmup_steps_ <- get warmup_steps ;;
      transformed_samples <-
        dispatch method_ (Torch.numel sample_shape) initial_params thin_
          warmup_steps_ num_chains_ ;;
      reshape_samples sample_shape
        (map theta_transform_inv transformed_samples)) w).
Proof.
  intros Hm Ht Hc Hn.
  eapply returning_bind; [apply init_fn_for_range_prior|].
  intros w1 inits [Hself Hlen].
  destruct inits as [|theta inits]; [simpl in Hlen; lia|].
  unfold torch_cat. rewrite bind_ret, !bind_get, Hself.
  eapply returning_bind.
  - apply dispatch_returning; [exact Hm|exact Ht|exact Hc|exact Hlen|].
    left. exact Hn.
  - intros w2 rows_ Hrows. unfold reshape_samples.
    rewrite length_map, Hrows, reshape_infer_last_rows by exact Hn.
    simpl. split; [reflexivity|]. now rewrite length_map.
Qed.

Lemma sample_unfold_default (sample_shape : list nat) (d : X) (w : world) :
  default_x (self w) = Some d ->
  sample sample_shape None w
  = bind (init_fn_for_range (num_chains (self w)) PriorInit)
      (fun inits =>
         initial_params <- torch_cat inits ;;
         method_ <- get method ;;
         thin_ <- get thin ;;
         warmup_steps_ <- get warmup_steps ;;
         transformed_samples <-
           dispatch method_ (Torch.numel sample_shape) initial_params thin_
             warmup_steps_ (num_chains (self w)) ;;
         reshape_samples sample_shape
           (map theta_transform_inv transformed_samples))
      (on_self (set_x_o (Some d)) w).
Proof.
  intros Hd. unfold sample, _x_else_default_x.
  unfold bind at 1. unfold bind at 1. unfold get at 1.
  cbv beta iota. rewrite Hd. reflexivity.
Qed.

Lemma sample_without_observation (sample_shape : list nat) (w : world) :
  default_x (self w) = None ->
  sample sample_shape None w = (w, Raise ValueError).
Proof.
  intros Hd. unfold sample, _x_else_default_x.
  unfold bind at 1. unfold bind at 1. unfold get at 1.
  cbv beta iota. now rewrite Hd.
Qed.

Lemma bind_raises A A' (m : M A) (k : A -> M A') (w w' : world) (e : exn) :
  m w = (w', Raise e) -> bind m k w = (w', Raise e).
Proof. intros Hm. unfold bind. now rewrite Hm. Qed.

Lemma bind_returns A A' (m : M A) (k : A -> M A') (w w' : world) (a : A) :
  m w = (w', Ok a) -> bind m k w = k a w'.
Proof. intros Hm. unfold bind. now rewrite Hm. Qed.

(** With a valid observation, the ascent of [map] is its choice of initial
    locations and the climb, run with the observation bound. *)
Lemma map_ascent_unfold (x : X) (num_iter num_to_optimize : nat)
    (learning_rate : LearningRate)
    (init_method : MCMCPosteriorMAP.init_method_arg)
    (num_init_samples save_best_every : nat) (w : world) :
  process_x x = true ->
  MCMCPosteriorMAP.map_ascent (Some x) num_iter num_to_optimize
    learning_rate init_method num_init_samples save_best_every w
  = bind (MCMCPosteriorMAP.map_inits init_method num_init_samples)
      (fun inits =>
         bound <- get x_o ;;
         ret (gradient_ascent bound inits num_iter num_to_optimize
                learning_rate save_best_every))
      (on_self (set_x_o (Some x)) w).
Proof.
  intros Hx. unfold MCMCPosteriorMAP.map_ascent, _x_else_default_x.
  rewrite Hx. reflexivity.
Qed.

(** X14.  [map] rejects an [init_method] that is neither ["posterior"] nor
    ["prior"], a tensor of initial locations included, with a value error;
    by then the observation is bound, and [map_] is left as it was. *)
Theorem map_rejects_other_init_methods (x : X)
    (num_iter num_to_optimize : nat) (learning_rate : LearningRate)
    (init_method : MCMCPosteriorMAP.init_method_arg)
    (num_init_samples save_best_every : nat)
    (mw : MCMCPosteriorMAP.map_world) :
  process_x x = true ->
  init_method <> MCMCPosteriorMAP.InitMethodStr "posterior" ->
  init_method <> MCMCPosteriorMAP.InitMethodStr "prior" ->
  MCMCPosteriorMAP.map (Some x) num_iter num_to_optimize learning_rate
    init_method num_init_samples save_best_every mw
  = ({| MCMCPosteriorMAP.posterior :=
          on_self (set_x_o (Some x)) (MCMCPosteriorMAP.posterior mw);
        MCMCPosteriorMAP.map_ := MCMCPosteriorMAP.map_ mw |},
     Raise ValueError).
Proof.
  intros Hx Hpost Hprior.
  assert (Hinits : forall w,
            MCMCPosteriorMAP.map_inits init_method num_init_samples w
            = (w, Raise ValueError)).
  { intros w. destruct init_method as [s|locations]; [|reflexivity].
    unfold MCMCPosteriorMAP.map_inits.
    destruct (String.eqb_spec s "posterior") as [->|_]; [congruence|].
    destruct (String.eqb_spec s "prior") as [->|_]; [congruence|].
    reflexivity. }
  unfold MCMCPosteriorMAP.map.
  rewrite map_ascent_unfold by exact Hx.
  erewrite bind_raises; [reflexivity|apply Hinits].
Qed.

(** X15.  With [init_method="posterior"], [map] draws its initial locations
    by [sample] without passing [x] on.  On an instance with no default
    observation the call therefore raises a value error although [x] was
    given; [x] stays bound and [map_] is left as it was. *)
Theorem map_posterior_needs_default_x (x : X)
    (num_iter num_to_optimize : nat) (learning_rate : LearningRate)
    (num_init_samples save_best_every : nat)
    (mw : MCMCPosteriorMAP.map_world) :
  process_x x = true ->
  default_x (self (MCMCPosteriorMAP.posterior mw)) = None ->
  MCMCPosteriorMAP.map (Some x) num_iter num_to_optimize learning_rate
    (MCMCPosteriorMAP.InitMethodStr "posterior") num_init_samples
    save_best_every mw
  = ({| MCMCPosteriorMAP.posterior :=
          on_self (set_x_o (Some x)) (MCMCPosteriorMAP.posterior mw);
        MCMCPosteriorMAP.map_ := MCMCPosteriorMAP.map_ mw |},
     Raise ValueError).
Proof.
  intros Hx Hd.
  set (w1 := on_self (set_x_o (Some x)) (MCMCPosteriorMAP.posterior mw)).
  assert (Hs : sample [num_init_samples] None w1 = (w1, Raise ValueError))
    by (apply sample_without_observation; exact Hd).
  unfold MCMCPosteriorMAP.map.
  rewrite map_ascent_unfold by exact Hx. fold w1.
  assert (Hinits : MCMCPosteriorMAP.map_inits
                     (MCMCPosteriorMAP.InitMethodStr "posterior")
                     num_init_samples w1 = (w1, Raise ValueError)).
  { unfold MCMCPosteriorMAP.map_inits. simpl.
    now apply bind_raises. }
  erewrite bind_raises; [reflexivity|exact Hinits].
Qed.

(** X16.  With [init_method="posterior"] and a default observation [d], the
    inner [sample((num_init_samples,))], run once [x] is bound, rebinds
    the potential to [d].  The ascent starts from the [num_init_samples]
    rows that call returns and climbs the potential given [d], whatever
    [x] was passed; the point found is returned and stored in [map_], on
    the instance as that call left it. *)
Theorem map_posterior_climbs_under_default_x (x d : X)
    (num_iter num_to_optimize : nat) (learning_rate : LearningRate)
    (num_init_samples save_best_every : nat)
    (mw : MCMCPosteriorMAP.map_world) :
  let p := self (MCMCPosteriorMAP.posterior mw) in
  process_x x = true -> default_x p = Some d ->
  str_in (method p) supported_methods = true ->
  1 <= thin p -> 1 <= num_chains p -> 1 <= num_init_samples ->
  exists w2 inits,
    sample [num_init_samples] None
      (on_self (set_x_o (Some x)) (MCMCPosteriorMAP.posterior mw))
    = (w2, Ok inits) /\
    shape inits = [num_init_samples; dim] /\
    length (rows inits) = num_init_samples /\
    x_o (self w2) = Some d /\
    let best := gradient_ascent (Some d) (rows inits) num_iter
                  num_to_optimize learning_rate save_best_every in
    MCMCPosteriorMAP.map (Some x) num_iter num_to_optimize learning_rate
      (MCMCPosteriorMAP.InitMethodStr "posterior") num_init_samples
      save_best_every mw
    = ({| MCMCPosteriorMAP.posterior := w2;
          MCMCPosteriorMAP.map_ := Some best |},
       Ok best).
Proof.
  intros p Hx Hd Hm Ht Hc Hn. subst p.
  set (w1 := on_self (set_x_o (Some x)) (MCMCPosteriorMAP.posterior mw)).
  assert (Hd1 : default_x (self w1) = Some d) by exact Hd.
  pose proof (sample_unfold_default [num_init_samples] w1 Hd1) as Hunf.
  assert (Hret : returning
            (fun _ t => shape t = [num_init_samples] ++ [dim] /\
                        length (rows t) = Torch.numel [num_init_samples])
            (sample [num_init_samples] None w1)).
  { rewrite Hunf. apply sample_after_binding_returns;
      [exact Hm|exact Ht|exact Hc|simpl; lia]. }
  assert (Hbound : x_o (self (fst (sample [num_init_samples] None w1)))
                   = Some d).
  { rewrite Hunf. rewrite (sample_after_binding_keeps x_o); reflexivity. }
  destruct (sample [num_init_samples] None w1) as [w2 [t|e]] eqn:Hs;
    simpl in Hret, Hbound; [|contradiction].
  destruct Hret as [Hshape Hrows]. simpl in Hrows.
  assert (Hinits : MCMCPosteriorMAP.map_inits
                     (MCMCPosteriorMAP.InitMethodStr "posterior")
                     num_init_samples w1 = (w2, Ok (rows t))).
  { unfold MCMCPosteriorMAP.map_inits. simpl.
    erewrite bind_returns; [reflexivity|exact Hs]. }
  exists w2, t.
  split; [reflexivity|]. split; [exact Hshape|]. split; [lia|].
  split; [exact Hbound|]. cbv zeta.
  unfold MCMCPosteriorMAP.map.
  rewrite map_ascent_unfold by exact Hx. fold w1.
  erewrite bind_returns; [|exact Hinits]. rewrite bind_get, Hbound.
  reflexivity.
Qed.

End MapEstimate.

(** ** Batches of the potential *)

Section PotentialBatches.

Import PosteriorPotential.

Variables Theta X Float32 : Type.
Variable neg_inf : Float32.
Variable posterior_model_log_prob : Theta -> X -> Float32.
Variable within_support : Theta -> bool.


End PotentialBatches.

(** ** Concrete runs of the further properties *)

Section FurtherRuns.

#[local] Existing Instance Toy.collaborators.
#[local] Existing Instance ToyMAP.collaborators.

Lemma slice_np_buffer_rows_per_chain_witness :
  exists w : world (C := Toy.collaborators),
    Toy.fresh "slice_np" 2 1 3 "prior" 0 = Ok w /\
    returning
      (fun w' samples =>
         self w' = self w /\
         length samples = 3 /\
         Forall (fun chain => length chain = ceil_div 7 3) samples /\
         7 <= length (concat samples) /\
         length (concat samples) < 7 + 3)
      (slice_np_buffer (C := Toy.collaborators) 7 [10; 20; 30] 2 1 true w).
Proof.
  eexists. split; [reflexivity|].
  apply (@slice_np_buffer_rows_per_chain Toy.collaborators 7 [10; 20; 30]
           2 1 true); simpl; lia.
Defined.

Lemma slice_np_vectorized_keeps_every_thin_th_witness :
  exists w : world (C := Toy.collaborators),
    Toy.fresh "slice_np_vectorized" 2 1 2 "prior" 0 = Ok w /\
    returning
      (fun _ samples =>
         Forall2
           (fun chain kept =>
              forall j, nth_error kept j = nth_error chain (1 * 2 + j * 2))
           [[11; 12; 13; 14; 15]; [21; 22; 23; 24; 25]] samples)
      (sample_chains_vectorized (C := Toy.collaborators) [10; 20] 3 2 2 1
         w).
Proof.
  eexists. split; [reflexivity|].
  apply (@slice_np_vectorized_keeps_every_thin_th Toy.collaborators 3
           [10; 20] 2 1); simpl; lia.
Defined.

Lemma pyro_mcmc_keeps_every_thin_th_witness :
  exists w : world (C := Toy.collaborators),
    Toy.fresh "nuts" 3 1 2 "prior" 0 = Ok w /\
    exists w' rows_,
      _pyro_mcmc (C := Toy.collaborators) 5 [7; 8] "nuts" 3 1 (Some 2) w
      = (w', Ok rows_) /\
      forall j, j < 5 ->
        nth_error rows_ j
        = nth_error (map (fun i => 3000 + i) (seq 0 (2 * (3 * 5 / 2 + 2))))
            (j * 3) /\
        nth_error rows_ j <> None.
Proof.
  eexists. split; [reflexivity|].
  apply (@pyro_mcmc_keeps_every_thin_th Toy.collaborators 5 [7; 8] "nuts"
           NUTS 3 1 2); [reflexivity|lia|lia].
Defined.

Lemma constructor_accepts_and_wraps_witness :
  exists p : MCMCPosterior (C := Toy.collaborators),
    __init__ None "slice_np_vectorized" 10 10 1 "prior" 1000 = Ok p.
Proof.
  apply (proj1 (@constructor_accepts_and_wraps Toy.collaborators None
                  "slice_np_vectorized" 10 10 1 "prior" 1000)).
  right. right. right. now exists ""%string, "_vectorized"%string.
Defined.

Lemma sample_binds_conditioning_data_witness :
  exists w : world (C := Toy.collaborators),
    Toy.fresh "slice_np" 1 0 1 "prior" 0 = Ok w /\
    sample [2] (Some 0) w = (w, Raise process_x_error) /\
    x_o (self (fst (sample [0] (Some 5) w))) = Some 5.
Proof.
  eexists. split; [reflexivity|]. split.
  - apply (@sample_binds_conditioning_data Toy.collaborators [2] 0).
    reflexivity.
  - apply (@sample_binds_conditioning_data Toy.collaborators [0] 5).
    reflexivity.
Defined.

Lemma sample_without_chains_fails_witness :
  exists w : world (C := Toy.collaborators),
    Toy.fresh "no_such_method_slice_np" 1 0 0 "prior" 0 = Ok w /\
    sample [2] (Some 5) w
    = (on_self (set_x_o (Some 5)) w, Raise RuntimeError).
Proof.
  eexists. split; [reflexivity|].
  apply (@sample_without_chains_fails Toy.collaborators [2] 5);
    reflexivity.
Defined.

Lemma _slice_np_mcmc_zero_samples_witness :
  exists w : world (C := Toy.collaborators),
    Toy.fresh "slice_np" 2 1 2 "prior" 0 = Ok w /\
    snd (_slice_np_mcmc (C := Toy.collaborators) 0 [10; 20] 2 1 false w)
    = Raise IndexError.
Proof.
  eexists. split; [reflexivity|].
  apply (@_slice_np_mcmc_zero_samples Toy.collaborators [10; 20] 2 1
           false); simpl; lia.
Defined.

Lemma thin_zero_is_a_value_error_witness :
  exists w : world (C := Toy.collaborators),
    Toy.fresh "hmc" 0 1 2 "prior" 0 = Ok w /\
    _slice_np_mcmc (C := Toy.collaborators) 3 [10; 20] 0 1 true w
    = ({| self := self w; rng := 0 |}, Raise ValueError) /\
    _pyro_mcmc (C := Toy.collaborators) 3 [10; 20] "hmc" 0 1 (Some 2) w
    = ({| self := self w; rng := 1 |}, Raise ValueError).
Proof.
  eexists. split; [reflexivity|].
  apply (@thin_zero_is_a_value_error Toy.collaborators 3 [10; 20] "hmc"
           HMC 1 2); [simpl; lia|lia|reflexivity].
Defined.

Lemma pyro_mcmc_configuration_errors_witness :
  exists w : world (C := Toy.collaborators),
    Toy.fresh "hmc" 2 1 2 "prior" 0 = Ok w /\
    _pyro_mcmc (C := Toy.collaborators) 3 [10; 20] "hmc" 2 1 None w
    = (w, Raise TypeError).
Proof.
  eexists. split; [reflexivity|].
  apply (@pyro_mcmc_configuration_errors Toy.collaborators 3 [10; 20]
           "hmc" 2 1 None). reflexivity.
Defined.

Lemma slice_np_mcmc_retains_last_rows_witness :
  exists w : world (C := Toy.collaborators),
    Toy.fresh "slice_np" 2 1 2 "prior" 0 = Ok w /\
    exists w1 samples latest,
      slice_np_buffer (C := Toy.collaborators) 3 [10; 20] 2 1 false w
      = (w1, Ok samples) /\
      self w1 = self w /\
      length samples = 2 /\
      Forall2 (fun chain theta => last_opt chain = Some theta)
              samples latest /\
      _slice_np_mcmc (C := Toy.collaborators) 3 [10; 20] 2 1 false w
      = (on_self (set__mcmc_init_params (Some latest)) w1,
         Ok (firstn 3 (concat samples))) /\
      _build_mcmc_init_fn "latest_sample"
        (on_self (set__mcmc_init_params (Some latest)) w1)
      = (on_self (set__mcmc_init_params (Some latest)) w1,
         Ok (IterateParameters latest 0)).
Proof.
  eexists. split; [reflexivity|].
  apply (@slice_np_mcmc_retains_last_rows Toy.collaborators 3 [10; 20] 2 1
           false); simpl; lia.
Defined.

Lemma latest_sample_replays_retained_states_witness :
  exists w : world (C := Toy.collaborators),
    Toy.fresh "slice_np" 2 1 2 "latest_sample" 0 = Ok w /\
    (f <- _build_mcmc_init_fn "latest_sample" ;; init_fn_for_range 2 f)
      (on_self (set__mcmc_init_params (Some [16; 26])) w)
    = (on_self (set__mcmc_init_params (Some [16; 26])) w, Ok [16; 26]).
Proof.
  eexists. split; [reflexivity|].
  apply (@latest_sample_replays_retained_states Toy.collaborators
           [16; 26]). reflexivity.
Defined.

End FurtherRuns.

Section FurtherMapRuns.

#[local] Existing Instance Toy.collaborators.
#[local] Existing Instance ToyMAP.collaborators.

Lemma map_rejects_other_init_methods_witness :
  exists w : world (C := Toy.collaborators),
    Toy.fresh "slice_np" 1 0 1 "prior" 0 = Ok w /\
    MCMCPosteriorMAP.map (MC := ToyMAP.collaborators) (Some 5) 100 10 1
      (MCMCPosteriorMAP.InitMethodTensor (C := Toy.collaborators)
         [1; 2; 3]) 20 10
      {| MCMCPosteriorMAP.posterior := w; MCMCPosteriorMAP.map_ := None |}
    = ({| MCMCPosteriorMAP.posterior := on_self (set_x_o (Some 5)) w;
          MCMCPosteriorMAP.map_ := None |},
       Raise ValueError).
Proof.
  eexists. split; [reflexivity|].
  apply (@map_rejects_other_init_methods Toy.collaborators
           ToyMAP.collaborators 5 100 10 1
           (MCMCPosteriorMAP.InitMethodTensor (C := Toy.collaborators)
         [1; 2; 3]) 20 10
           {| MCMCPosteriorMAP.posterior := _;
              MCMCPosteriorMAP.map_ := None |});
    [reflexivity|discriminate|discriminate].
Defined.

Lemma map_posterior_needs_default_x_witness :
  exists w : world (C := Toy.collaborators),
    Toy.fresh "slice_np" 1 0 1 "prior" 0 = Ok w /\
    MCMCPosteriorMAP.map (MC := ToyMAP.collaborators) (Some 5) 100 10 1
      (MCMCPosteriorMAP.InitMethodStr "posterior") 20 10
      {| MCMCPosteriorMAP.posterior := w; MCMCPosteriorMAP.map_ := None |}
    = ({| MCMCPosteriorMAP.posterior := on_self (set_x_o (Some 5)) w;
          MCMCPosteriorMAP.map_ := None |},
       Raise ValueError).
Proof.
  eexists. split; [reflexivity|].
  apply (@map_posterior_needs_default_x Toy.collaborators
           ToyMAP.collaborators 5 100 10 1 20 10
           {| MCMCPosteriorMAP.posterior := _;
              MCMCPosteriorMAP.map_ := None |}); reflexivity.
Defined.

Lemma map_posterior_climbs_under_default_x_witness :
  exists w : world (C := Toy.collaborators),
    Toy.fresh "slice_np" 1 0 1 "prior" 0 = Ok w /\
    exists w2 inits,
      sample [4] None
        (on_self (set_x_o (Some 5)) (on_self (ToyMAP.with_default_x 9) w))
      = (w2, Ok inits) /\
      shape inits = [4; 1] /\
      length (rows inits) = 4 /\
      x_o (self w2) = Some 9 /\
      MCMCPosteriorMAP.map (MC := ToyMAP.collaborators) (Some 5) 100 10 1
        (MCMCPosteriorMAP.InitMethodStr "posterior") 4 10
        {| MCMCPosteriorMAP.posterior := on_self (ToyMAP.with_default_x 9) w;
           MCMCPosteriorMAP.map_ := None |}
      = ({| MCMCPosteriorMAP.posterior := w2;
            MCMCPosteriorMAP.map_ :=
              Some (ToyMAP.ascent (Some 9) (rows inits) 100 10 1 10) |},
         Ok (ToyMAP.ascent (Some 9) (rows inits) 100 10 1 10)).
Proof.
  eexists. split; [reflexivity|].
  apply (@map_posterior_climbs_under_default_x Toy.collaborators
           ToyMAP.collaborators 5 9 100 10 1 4 10
           {| MCMCPosteriorMAP.posterior := _;
              MCMCPosteriorMAP.map_ := None |});
    [reflexivity|reflexivity|reflexivity|simpl; lia|simpl; lia|lia].
Defined.

End FurtherMapRuns.

Section FurtherPotentialRuns.

Import PosteriorPotential.


End FurtherPotentialRuns.
